(** * A shallow embedding of the virtual file system of Tasnuva TOS (src/vfs.py)

    The SQLite table [filesystem] is modelled as the list of its rows, in
    insertion order; the [VFS] object as a record holding that table and the
    cursor [current_path].  Timestamps and the autoincrement id are not
    modelled: no query of the code reads them.  Every method of [VFS] that
    changes the store returns its Python result together with the new state. *)

From Stdlib Require Import Bool Arith NArith List String Ascii Sorted Permutation Lia.
Import ListNotations.
Local Open Scope string_scope.
Local Open Scope list_scope.

(** ** Strings as Python handles them *)

Definition slash : ascii := "/"%char.

(** [str.startswith('/')] *)
Definition starts_with_slash (s : string) : bool :=
  match s with
  | String c _ => Ascii.eqb c slash
  | EmptyString => false
  end.

(** [str.split('/')]: always at least one piece. *)
Fixpoint split_slash (s : string) : list string :=
  match s with
  | EmptyString => [EmptyString]
  | String c s' =>
      let r := split_slash s' in
      if Ascii.eqb c slash then EmptyString :: r
      else match r with
           | h :: t => String c h :: t
           | [] => [String c EmptyString]
           end
  end.

(** [sep.join(parts)] *)
Fixpoint join (sep : string) (parts : list string) : string :=
  match parts with
  | [] => EmptyString
  | [p] => p
  | p :: ps => String.append p (String.append sep (join sep ps))
  end.

(** The loop of [normalize_path] over the pieces, with [parts] kept as a
    stack (last element first). *)
Definition resolve_step (parts : list string) (part : string) : list string :=
  if (part =? "") || (part =? ".") then parts
  else if part =? ".." then
    match parts with
    | [] => []
    | _ :: t => t          (* parts.pop() *)
    end
  else part :: parts.

Definition resolve (pieces : list string) : list string :=
  rev (fold_left resolve_step pieces []).

(** [VFS.normalize_path], with [self.current_path] passed as [cur]. *)
Definition normalize_from (cur path : string) : string :=
  let path :=
    if starts_with_slash path then path
    else if cur =? "/" then String.append "/" path
    else String.append cur (String.append "/" path) in
  match resolve (split_slash path) with
  | [] => "/"
  | parts => String.append "/" (join "/" parts)
  end.

(** [posixpath.basename] and [posixpath.dirname]: both cut the path after
    its last ['/']; [last_slash_split p = (p[:i], p[i:])]. *)
Fixpoint last_slash_split (s : string) : string * string :=
  match s with
  | EmptyString => (EmptyString, EmptyString)
  | String c s' =>
      let (h, t) := last_slash_split s' in
      match h with
      | EmptyString =>
          if Ascii.eqb c slash then (String c EmptyString, t)
          else (EmptyString, String c t)
      | _ => (String c h, t)
      end
  end.

Fixpoint all_slashes (s : string) : bool :=
  match s with
  | EmptyString => true
  | String c s' => Ascii.eqb c slash && all_slashes s'
  end.

(** [str.rstrip('/')] *)
Fixpoint rstrip_slash (s : string) : string :=
  match s with
  | EmptyString => EmptyString
  | String c s' =>
      let r := rstrip_slash s' in
      match r with
      | EmptyString => if Ascii.eqb c slash then EmptyString else String c EmptyString
      | _ => String c r
      end
  end.

Definition basename (p : string) : string := snd (last_slash_split p).

Definition dirname (p : string) : string :=
  let head := fst (last_slash_split p) in
  match head with
  | EmptyString => head
  | _ => if all_slashes head then head else rstrip_slash head
  end.

(** ** SQLite's GLOB operator

    [likeFunc] hands both operands to [patternCompare] as C strings, so
    each is read only up to its first NUL byte, and both are read one
    character at a time with [sqlite3Utf8Read]: a byte below [0xc0] is a
    character by itself; a byte from [0xc0] on starts a character that
    takes every continuation byte ([10xxxxxx]) after it, and a result
    below [0x80], a surrogate, [0xfffe] or [0xffff] is read as [0xfffd].
    Strings here are the UTF-8 bytes SQLite stores. *)
Definition nul : ascii := ascii_of_nat 0.

Fixpoint cstr_cut (s : string) : string :=
  match s with
  | EmptyString => EmptyString
  | String c s' => if Ascii.eqb c nul then EmptyString else String c (cstr_cut s')
  end.

(** [sqlite3Utf8Trans1]: the payload bits of a lead byte [0xc0]-[0xff]. *)
Definition utf8_trans1 (n : N) : N :=
  if (n <? 0xE0)%N then n - 0xC0
  else if (n <? 0xF0)%N then n - 0xE0
  else if (n <? 0xF8)%N then n - 0xF0
  else if (n <? 0xFC)%N then n - 0xF8
  else if (n <? 0xFE)%N then n - 0xFC
  else 0.

Definition utf8_fix (c : N) : N :=
  if (c <? 0x80)%N || (N.land c 0xFFFFF800 =? 0xD800)%N || (N.land c 0xFFFFFFFE =? 0xFFFE)%N
  then 0xFFFD else c.

(** The characters [sqlite3Utf8Read] reads in turn; [cur] is the
    character being assembled from a lead byte (an [unsigned int], so the
    shifts wrap at [2^32]). *)
Fixpoint utf8_dec (cur : option N) (s : string) : list N :=
  match s with
  | EmptyString => match cur with Some c => [utf8_fix c] | None => [] end
  | String b s' =>
      let n := N_of_ascii b in
      let start :=
        if (n <? 0xC0)%N then n :: utf8_dec None s'
        else utf8_dec (Some (utf8_trans1 n)) s' in
      match cur with
      | Some c =>
          if (N.land n 0xC0 =? 0x80)%N
          then utf8_dec (Some ((c * 64 + N.land n 0x3F) mod 2 ^ 32)%N) s'
          else utf8_fix c :: start
      | None => start
      end
  end.

Definition sql_chars (s : string) : list N := utf8_dec None (cstr_cut s).

(** The pattern is read into tokens the way [patternCompare] reads it:
    [*] any sequence, [?] any one character, [[...]] a character class
    ([^] inverts it, a leading []] is a member, [a-z] is a range when a
    member precedes the [-] and a member other than []] follows it),
    anything else a literal.  An unterminated class never matches.  GLOB
    has no escape character and is case sensitive. *)
Inductive gitem := GSingle (c : N) | GRange (lo hi : N).

Inductive gtok :=
| GStar
| GOne
| GClass (invert : bool) (items : list gitem)
| GLit (c : N)
| GBad.

Fixpoint parse_class_items (prior : option N) (s : list N)
  : option (list gitem * list N) :=
  match s with
  | [] => None
  | c2 :: rest =>
      if (c2 =? 93)%N (* ] *) then Some ([], rest)
      else
        let single :=
          match parse_class_items (Some c2) rest with
          | Some (its, r) => Some (GSingle c2 :: its, r)
          | None => None
          end in
        if (c2 =? 45)%N (* - *) then
          match prior, rest with
          | Some lo, hi :: rest' =>
              if (hi =? 93)%N then single
              else match parse_class_items None rest' with
                   | Some (its, r) => Some (GRange lo hi :: its, r)
                   | None => None
                   end
          | _, _ => single
          end
        else single
  end.

Fixpoint tokenize (fuel : nat) (s : list N) : list gtok :=
  match fuel with
  | O => []
  | S f =>
      match s with
      | [] => []
      | c :: rest =>
          if (c =? 42)%N (* * *) then GStar :: tokenize f rest
          else if (c =? 63)%N (* ? *) then GOne :: tokenize f rest
          else if (c =? 91)%N (* [ *) then
            let '(inv, body) :=
              match rest with
              | c' :: r => if (c' =? 94)%N (* ^ *) then (true, r) else (false, rest)
              | [] => (false, rest)
              end in
            let '(lead, body') :=
              match body with
              | c' :: r => if (c' =? 93)%N then ([GSingle 93%N], r) else ([], body)
              | [] => ([], body)
              end in
            match parse_class_items None body' with
            | Some (its, r) => GClass inv (lead ++ its) :: tokenize f r
            | None => [GBad]
            end
          else GLit c :: tokenize f rest
      end
  end.

Definition class_hit (c : N) (items : list gitem) : bool :=
  existsb (fun it =>
    match it with
    | GSingle c2 => (c =? c2)%N
    | GRange lo hi => (lo <=? c)%N && (c <=? hi)%N
    end) items.

Fixpoint gmatch (ts : list gtok) (s : list N) : bool :=
  match ts with
  | [] => match s with [] => true | _ => false end
  | GStar :: ts' =>
      (fix star (s : list N) : bool :=
         gmatch ts' s || match s with
                         | [] => false
                         | _ :: s' => star s'
                         end) s
  | GOne :: ts' =>
      match s with _ :: s' => gmatch ts' s' | [] => false end
  | GClass inv items :: ts' =>
      match s with
      | c :: s' => xorb (class_hit c items) inv && gmatch ts' s'
      | [] => false
      end
  | GLit c :: ts' =>
      match s with
      | c' :: s' => (c =? c')%N && gmatch ts' s'
      | [] => false
      end
  | GBad :: _ => false
  end.

(** [value GLOB pattern].  [likeFunc] first refuses a pattern longer than
    [SQLITE_LIMIT_LIKE_PATTERN_LENGTH] bytes ([glob_pattern_limit]) with
    the error "LIKE or GLOB pattern too complex"; that check is not part
    of this function (see [remove]). *)
Definition glob (pattern value : string) : bool :=
  let ps := sql_chars pattern in
  gmatch (tokenize (S (List.length ps)) ps) (sql_chars value).

Definition glob_pattern_limit : N := 50000.

(** ** The table and the VFS object *)

(** The column [type], constrained by [CHECK (type IN ('file', 'directory'))]. *)
Inductive ftype := File | Directory.

Definition type_str (t : ftype) : string :=
  match t with File => "file" | Directory => "directory" end.

Definition ftype_eqb (a b : ftype) : bool :=
  match a, b with
  | File, File | Directory, Directory => true
  | _, _ => false
  end.

Record row := mkRow {
  path : string;
  name : string;
  type : ftype;
  content : string
}.

Record VFS := mkVFS {
  filesystem : list row;
  current_path : string
}.

Definition set_filesystem (st : VFS) (rows : list row) : VFS :=
  mkVFS rows (current_path st).

Definition nl : string := String (ascii_of_nat 10) EmptyString.

Definition welcome_text : string :=
  String.append "Welcome to Tasnuva TOS!" (String.append nl
  (String.append "This is a virtual filesystem." (String.append nl
  (String.append "Try commands like ls, cd, mkdir, touch, cat, echo, rm." nl)))).

Definition default_dirs : list string := ["/home"; "/tmp"; "/usr"; "/var"].

(** The rows [init_database] and [reset_filesystem] insert, in order. *)
Definition default_rows : list row :=
  mkRow "/" "root" Directory ""
  :: map (fun d => mkRow d (basename d) Directory "") default_dirs
  ++ [mkRow "/welcome.txt" "welcome.txt" File welcome_text].

(** [VFS.init_database]: the defaults are inserted when there is no root. *)
Definition init_database (rows : list row) : list row :=
  if existsb (fun r => path r =? "/") rows then rows else rows ++ default_rows.

(** [VFS.__init__] on a fresh database file. *)
Definition vfs_init : VFS := mkVFS (init_database []) "/".

Definition normalize_path (st : VFS) (p : string) : string :=
  normalize_from (current_path st) p.

(** [SELECT ... FROM filesystem WHERE path = ?] with [fetchone()]. *)
Definition lookup (rows : list row) (p : string) : option row :=
  find (fun r => path r =? p) rows.

(** [VFS.exists] ([exists] is a keyword of Rocq). *)
Definition exists_ (st : VFS) (p : string) : bool :=
  let p := normalize_path st p in
  Nat.ltb 0 (List.length (filter (fun r => path r =? p) (filesystem st))).

Definition is_directory (st : VFS) (p : string) : bool :=
  let p := normalize_path st p in
  match lookup (filesystem st) p with
  | Some r => type_str (type r) =? "directory"
  | None => false
  end.

Definition is_file (st : VFS) (p : string) : bool :=
  let p := normalize_path st p in
  match lookup (filesystem st) p with
  | Some r => type_str (type r) =? "file"
  | None => false
  end.

(** [ORDER BY type DESC, name] on the selected [(name, type)] pairs; the
    names compare bytewise (SQLite's BINARY collation). *)
Definition order_cmp (a b : string * ftype) : comparison :=
  match String.compare (type_str (snd b)) (type_str (snd a)) with
  | Eq => String.compare (fst a) (fst b)
  | c => c
  end.

Fixpoint insert_ordered (x : string * ftype) (l : list (string * ftype)) :=
  match l with
  | [] => [x]
  | y :: l' =>
      match order_cmp x y with
      | Gt => y :: insert_ordered x l'
      | _ => x :: y :: l'
      end
  end.

Definition order_by (l : list (string * ftype)) : list (string * ftype) :=
  fold_right insert_ordered [] l.

Definition child_pattern (p : string) : string :=
  if p =? "/" then "/[^/]*" else String.append p "/[^/]*".

(** [VFS.list_directory].  As in [remove], a pattern longer than
    [glob_pattern_limit] bytes makes the query raise instead of returning a
    listing once GLOB is evaluated on some row. *)
Definition list_directory (st : VFS) (arg : option string)
  : option (list (string * ftype)) :=
  let p := match arg with None => current_path st | Some p => p end in
  let p := normalize_path st p in
  if negb (exists_ st p) || negb (is_directory st p) then None
  else
    let pattern := child_pattern p in
    Some (order_by
            (map (fun r => (name r, type r))
                 (filter (fun r => glob pattern (path r) && negb (path r =? p))
                         (filesystem st)))).

Definition read_file (st : VFS) (p : string) : option string :=
  let p := normalize_path st p in
  if negb (exists_ st p) || negb (is_file st p) then None
  else match lookup (filesystem st) p with
       | Some r => Some (content r)
       | None => None
       end.

Definition write_file (st : VFS) (p c : string) (append : bool) : bool * VFS :=
  let p := normalize_path st p in
  if exists_ st p then
    if negb (is_file st p) then (false, st)   (* Cannot write to directory *)
    else
      let c :=
        if append then
          match lookup (filesystem st) p with
          | Some r => String.append (content r) c
          | None => c
          end
        else c in
      (true, set_filesystem st
               (map (fun r => if path r =? p then mkRow (path r) (name r) (type r) c else r)
                    (filesystem st)))
  else
    (true, set_filesystem st (filesystem st ++ [mkRow p (basename p) File c])).

Definition create_directory (st : VFS) (p : string) : bool * VFS :=
  let p := normalize_path st p in
  if exists_ st p then (false, st)            (* Already exists *)
  else
    let parent := dirname p in
    if negb (parent =? p) && negb (exists_ st parent) then (false, st)
    else (true, set_filesystem st
                  (filesystem st ++ [mkRow p (basename p) Directory ""])).

(** [VFS.remove].  The counting query [... WHERE path GLOB ?] raises
    [sqlite3.OperationalError] ("LIKE or GLOB pattern too complex") when
    the pattern is longer than [glob_pattern_limit] bytes and GLOB gets
    evaluated on some row; the exception leaves the table as it was, which
    is the state the model returns, but the model reports [false] where
    the code raises.  Statements about the GLOB branch below assume a
    pattern within the limit. *)
Definition remove (st : VFS) (p : string) : bool * VFS :=
  let p := normalize_path st p in
  let delete := (true, set_filesystem st
                         (filter (fun r => negb (path r =? p)) (filesystem st))) in
  if negb (exists_ st p) then (false, st)
  else if is_directory st p then
    let pattern := child_pattern p in
    if Nat.ltb 0 (List.length (filter (fun r => glob pattern (path r)) (filesystem st)))
    then (false, st)                           (* Directory not empty *)
    else delete
  else delete.

Definition change_directory (st : VFS) (p : string) : bool * VFS :=
  let p := normalize_path st p in
  if negb (exists_ st p) || negb (is_directory st p) then (false, st)
  else (true, mkVFS (filesystem st) p).

Definition get_current_directory (st : VFS) : string := current_path st.

(** [VFS.reset_filesystem]: the table is dropped and recreated. *)
Definition reset_filesystem (st : VFS) : bool * VFS :=
  (true, mkVFS default_rows "/").

(** ** Runs of operations *)

Inductive op :=
| OWrite (p c : string) (append : bool)
| OMkdir (p : string)
| ORemove (p : string)
| OCd (p : string)
| OReset.

Definition step (st : VFS) (o : op) : bool * VFS :=
  match o with
  | OWrite p c a => write_file st p c a
  | OMkdir p => create_directory st p
  | ORemove p => remove st p
  | OCd p => change_directory st p
  | OReset => reset_filesystem st
  end.

Definition run (st : VFS) (ops : list op) : VFS :=
  fold_left (fun s o => snd (step s o)) ops st.

Definition reachable (st : VFS) : Prop := exists ops, st = run vfs_init ops.

(** * The shell commands of [core.py]

    The commands are stored as Python source in the commands table and run
    with the argument list produced by [shlex.split]; each one below takes
    that argument list and the VFS, and returns the text the command
    returns together with the VFS afterwards. *)







Definition ls_command (args : list string) (st : VFS) : string * VFS :=
  let p := match args with [] => None | a :: _ => Some a end in
  match list_directory st p with
  | None => ("ls: cannot access directory", st)
  | Some [] => (EmptyString, st)
  | Some contents =>
      (join "  " (map (fun e => if type_str (snd e) =? "directory"
                                then String.append (fst e) "/" else fst e) contents), st)
  end.

Definition pwd_command (args : list string) (st : VFS) : string * VFS :=
  (get_current_directory st, st).

Definition cd_command (args : list string) (st : VFS) : string * VFS :=
  let p := match args with [] => "/" | a :: _ => a end in
  let (ok, st') := change_directory st p in
  if ok then (EmptyString, st')
  else (String.append "cd: " (String.append p ": No such directory"), st').




Fixpoint mkdir_loop (ds : list string) (st : VFS) : string * VFS :=
  match ds with
  | [] => (EmptyString, st)
  | d :: ds' =>
      let (ok, st') := create_directory st d in
      if ok then mkdir_loop ds' st'
      else (String.append "mkdir: cannot create directory '" (String.append d "'"), st')
  end.

Definition mkdir_command (args : list string) (st : VFS) : string * VFS :=
  match args with
  | [] => ("mkdir: missing operand", st)
  | _ => mkdir_loop args st
  end.

Fixpoint touch_loop (fs : list string) (st : VFS) : string * VFS :=
  match fs with
  | [] => (EmptyString, st)
  | f :: fs' =>
      let (ok, st') := write_file st f EmptyString false in
      if ok then touch_loop fs' st'
      else (String.append "touch: cannot create '" (String.append f "'"), st')
  end.

Definition touch_command (args : list string) (st : VFS) : string * VFS :=
  match args with
  | [] => ("touch: missing file operand", st)
  | _ => touch_loop args st
  end.

Fixpoint rm_loop (ps : list string) (st : VFS) : string * VFS :=
  match ps with
  | [] => (EmptyString, st)
  | p :: ps' =>
      let (ok, st') := remove st p in
      if ok then rm_loop ps' st'
      else if negb (exists_ st' p) then
        (String.append "rm: cannot remove '"
           (String.append p "': No such file or directory"), st')
      else if is_directory st' p then
        (String.append "rm: cannot remove '" (String.append p "': Directory not empty"), st')
      else (String.append "rm: cannot remove '" (String.append p "'"), st')
  end.

Definition rm_command (args : list string) (st : VFS) : string * VFS :=
  match args with
  | [] => ("rm: missing operand", st)
  | _ => rm_loop args st
  end.

(** [reset_command]: [Core.reset_core] resets the VFS and reloads the
    default commands; the command set is fixed here, so only the VFS part
    is modelled. *)
Definition reset_command (args : list string) (st : VFS) : string * VFS :=
  if existsb (fun a => a =? "--confirm") args then
    ("System has been reset to default state.", snd (reset_filesystem st))
  else
    ("This is a destructive operation. Please run 'reset --confirm' to proceed.", st).

(** * Properties *)

(** ** Normalization *)

Fixpoint no_slash (s : string) : bool :=
  match s with
  | EmptyString => true
  | String c s' => negb (Ascii.eqb c slash) && no_slash s'
  end.

(** A segment [normalize_path] keeps. *)
Definition good_part (p : string) : bool :=
  negb (p =? "") && negb (p =? ".") && negb (p =? "..") && no_slash p.

Lemma append_empty_r (s : string) : String.append s EmptyString = s.
Proof. induction s as [|c s IH]; simpl; [reflexivity | now rewrite IH]. Qed.

Lemma split_slash_cons (s : string) :
  exists h t, split_slash s = h :: t.
Proof.
  induction s as [|c s [h [t IH]]]; simpl.
  - eauto.
  - rewrite IH. destruct (Ascii.eqb c slash); eauto.
Qed.

Lemma split_slash_parts (s : string) : Forall (fun p => no_slash p = true) (split_slash s).
Proof.
  induction s as [|c s IH]; simpl.
  - now constructor.
  - destruct (Ascii.eqb c slash) eqn:Ec.
    + constructor; [reflexivity | exact IH].
    + destruct (split_slash s) as [|h t]; inversion IH; subst.
      * constructor; simpl; [now rewrite Ec | constructor].
      * constructor; [simpl; now rewrite Ec | assumption].
Qed.

Lemma split_slash_word (w s : string) :
  no_slash w = true ->
  split_slash (String.append w s) =
  match split_slash s with
  | h :: t => String.append w h :: t
  | [] => [w]
  end.
Proof.
  induction w as [|c w IH]; simpl; intros Hw.
  - destruct (split_slash_cons s) as [h [t ->]]. reflexivity.
  - apply andb_true_iff in Hw as [Hc Hw]. apply negb_true_iff in Hc.
    rewrite (IH Hw), Hc. destruct (split_slash_cons s) as [h [t ->]]. reflexivity.
Qed.

Lemma split_slash_join (ps : list string) :
  ps <> [] -> Forall (fun p => no_slash p = true) ps ->
  split_slash (join "/" ps) = ps.
Proof.
  induction ps as [|p ps IH]; intros Hne Hall; [congruence|].
  inversion Hall as [|? ? Hp Hps]; subst.
  destruct ps as [|q qs].
  - simpl join. rewrite <- (append_empty_r p), (split_slash_word _ _ Hp). simpl.
    now rewrite append_empty_r.
  - change (join "/" (p :: q :: qs))
      with (String.append p (String "/"%char (join "/" (q :: qs)))).
    rewrite (split_slash_word _ _ Hp).
    change (split_slash (String "/"%char (join "/" (q :: qs))))
      with (EmptyString :: split_slash (join "/" (q :: qs))).
    rewrite (IH ltac:(discriminate) Hps), append_empty_r. reflexivity.
Qed.

Lemma resolve_step_good (ps st : list string) :
  Forall (fun p => good_part p = true) ps ->
  fold_left resolve_step ps st = rev ps ++ st.
Proof.
  revert st; induction ps as [|p ps IH]; intros st Hall; simpl; [reflexivity|].
  inversion Hall as [|? ? Hp Hps]; subst.
  unfold good_part in Hp.
  destruct (p =? "") eqn:E1; [discriminate|].
  destruct (p =? ".") eqn:E2; [discriminate|].
  destruct (p =? "..") eqn:E3; [discriminate|].
  unfold resolve_step. rewrite E1, E2, E3. simpl.
  rewrite (IH _ Hps), <- app_assoc. reflexivity.
Qed.

Lemma resolve_step_keeps_good (pieces st : list string) :
  Forall (fun p => no_slash p = true) pieces ->
  Forall (fun p => good_part p = true) st ->
  Forall (fun p => good_part p = true) (fold_left resolve_step pieces st).
Proof.
  revert st; induction pieces as [|p ps IH]; intros st Hpieces Hst; simpl; [exact Hst|].
  inversion Hpieces as [|? ? Hp Hps]; subst.
  apply IH; [exact Hps|]. unfold resolve_step.
  destruct ((p =? "") || (p =? ".")) eqn:E1; [exact Hst|].
  destruct (p =? "..") eqn:E2.
  - destruct st; [constructor | now inversion Hst].
  - constructor; [|exact Hst].
    apply orb_false_iff in E1 as [E1 E1'].
    unfold good_part. now rewrite E1, E1', E2, Hp.
Qed.

Lemma resolve_good (pieces : list string) :
  Forall (fun p => no_slash p = true) pieces ->
  Forall (fun p => good_part p = true) (resolve pieces).
Proof.
  intros H. unfold resolve. apply Forall_rev, resolve_step_keeps_good; auto.
Qed.

Lemma good_no_slash (ps : list string) :
  Forall (fun p => good_part p = true) ps -> Forall (fun p => no_slash p = true) ps.
Proof.
  apply Forall_impl. intros p Hp. unfold good_part in Hp.
  now repeat (apply andb_true_iff in Hp as [? Hp]).
Qed.

(** The canonical form of a list of segments, as [normalize_path] builds it. *)
Definition rebuild (parts : list string) : string :=
  match parts with
  | [] => "/"
  | _ => String.append "/" (join "/" parts)
  end.

Lemma normalize_rebuild (cur p : string) :
  exists parts, Forall (fun q => good_part q = true) parts /\
                normalize_from cur p = rebuild parts.
Proof.
  unfold normalize_from.
  match goal with |- context [resolve (split_slash ?x)] => set (y := x) end.
  exists (resolve (split_slash y)). split.
  - apply resolve_good, split_slash_parts.
  - destruct (resolve (split_slash y)); reflexivity.
Qed.

Lemma normalize_of_rebuild (cur : string) (parts : list string) :
  Forall (fun q => good_part q = true) parts ->
  normalize_from cur (rebuild parts) = rebuild parts.
Proof.
  intros Hg. destruct parts as [|p ps]; [reflexivity|].
  unfold normalize_from, rebuild. simpl starts_with_slash. cbv iota beta.
  change (split_slash (String.append "/" (join "/" (p :: ps))))
    with (EmptyString :: split_slash (join "/" (p :: ps))).
  rewrite split_slash_join by (discriminate || now apply good_no_slash).
  unfold resolve.
  change (fold_left resolve_step (EmptyString :: p :: ps) [])
    with (fold_left resolve_step (p :: ps) []).
  rewrite resolve_step_good by exact Hg.
  rewrite app_nil_r, rev_involutive. reflexivity.
Qed.

Lemma normalize_from_idem (b b' p : string) :
  normalize_from b' (normalize_from b p) = normalize_from b p.
Proof.
  destruct (normalize_rebuild b p) as [parts [Hg ->]].
  now apply normalize_of_rebuild.
Qed.

Lemma normalize_path_idem (st : VFS) (p : string) :
  normalize_path st (normalize_path st p) = normalize_path st p.
Proof. apply normalize_from_idem. Qed.

(** ** Queries as lookups of the normalized path *)

Lemma exists_lookup (st : VFS) (p : string) :
  exists_ st p =
  match lookup (filesystem st) (normalize_path st p) with
  | Some _ => true
  | None => false
  end.
Proof.
  unfold exists_, lookup. generalize (normalize_path st p) as q. intros q.
  induction (filesystem st) as [|r rows IH]; simpl; [reflexivity|].
  destruct (path r =? q); [reflexivity | exact IH].
Qed.

Lemma is_directory_lookup (st : VFS) (p : string) :
  is_directory st p =
  match lookup (filesystem st) (normalize_path st p) with
  | Some r => ftype_eqb (type r) Directory
  | None => false
  end.
Proof.
  unfold is_directory. destruct (lookup _ _) as [[? ? [|] ?]|]; reflexivity.
Qed.

Lemma is_file_lookup (st : VFS) (p : string) :
  is_file st p =
  match lookup (filesystem st) (normalize_path st p) with
  | Some r => ftype_eqb (type r) File
  | None => false
  end.
Proof.
  unfold is_file. destruct (lookup _ _) as [[? ? [|] ?]|]; reflexivity.
Qed.

Lemma read_file_lookup (st : VFS) (p : string) :
  read_file st p =
  match lookup (filesystem st) (normalize_path st p) with
  | Some r => if ftype_eqb (type r) File then Some (content r) else None
  | None => None
  end.
Proof.
  unfold read_file.
  rewrite exists_lookup, is_file_lookup, !normalize_path_idem.
  destruct (lookup _ _) as [[? ? [|] ?]|]; reflexivity.
Qed.

Definition update_content (q c : string) (r : row) : row :=
  if path r =? q then mkRow (path r) (name r) (type r) c else r.

Lemma lookup_update (rows : list row) (q c : string) :
  lookup (map (update_content q c) rows) q =
  option_map (fun r => mkRow (path r) (name r) (type r) c) (lookup rows q).
Proof.
  unfold lookup. induction rows as [|r rows IH]; simpl; [reflexivity|].
  assert (Hp : path (update_content q c r) = path r)
    by (unfold update_content; destruct (path r =? q); reflexivity).
  rewrite Hp. destruct (path r =? q) eqn:E; simpl.
  - unfold update_content. now rewrite E.
  - exact IH.
Qed.

Lemma lookup_app_new (rows : list row) (q : string) (r : row) :
  lookup rows q = None -> path r = q -> lookup (rows ++ [r]) q = Some r.
Proof.
  unfold lookup. intros Hn Hr. induction rows as [|r' rows IH]; simpl in *.
  - subst. now rewrite String.eqb_refl.
  - destruct (path r' =? q); [discriminate | exact (IH Hn)].
Qed.

Lemma write_file_lookup (st : VFS) (p c : string) (append : bool) :
  let q := normalize_path st p in
  write_file st p c append =
  match lookup (filesystem st) q with
  | Some r =>
      if ftype_eqb (type r) File then
        (true, set_filesystem st
                 (map (update_content q (if append then String.append (content r) c else c))
                      (filesystem st)))
      else (false, st)
  | None => (true, set_filesystem st (filesystem st ++ [mkRow q (basename q) File c]))
  end.
Proof.
  intros q. unfold write_file. fold q.
  rewrite exists_lookup, is_file_lookup. unfold q at 1 2 3. rewrite !normalize_path_idem. fold q.
  destruct (lookup (filesystem st) q) as [[rp rn [|] rc]|]; reflexivity.
Qed.

(** ** Claims about single operations *)

(** C9: normalization is idempotent: normalizing the result of
    [normalize_path] again, against the same or any other current directory,
    gives back the same string. *)
Theorem normalize_idempotent (p b b' : string) :
  normalize_from b (normalize_from b p) = normalize_from b p /\
  normalize_from b' (normalize_from b p) = normalize_from b p.
Proof. split; apply normalize_from_idem. Qed.

(** C10: in every state of the store, [is_file] and [is_directory] are never
    both true of a path, and [exists] holds exactly when one of them does:
    every row has the type file or the type directory. *)
Theorem file_dir_exclusive (st : VFS) (p : string) :
  is_file st p && is_directory st p = false /\
  exists_ st p = xorb (is_file st p) (is_directory st p).
Proof.
  rewrite exists_lookup, is_file_lookup, is_directory_lookup.
  destruct (lookup _ _) as [[? ? [|] ?]|]; split; reflexivity.
Qed.

(** C8: after any run of operations from the initial state, [reset()]
    restores the startup state: the root lists the directories home, tmp,
    usr, var and the file welcome.txt (the code lists the file first), the
    cursor is [/], and [/welcome.txt] holds the welcome text. *)
Theorem reset_restores_startup (ops : list op) :
  let st := snd (reset_filesystem (run vfs_init ops)) in
  list_directory st (Some "/") =
    Some [("welcome.txt", File); ("home", Directory); ("tmp", Directory);
          ("usr", Directory); ("var", Directory)] /\
  current_path st = "/" /\
  read_file st "/welcome.txt" = Some welcome_text.
Proof. vm_compute. repeat split. Qed.

(** C7: append law.  When [p] does not name an existing directory,
    [write_file p a] followed by [write_file p b ~append:true] makes
    [read_file p] return [a ++ b]. *)
Theorem write_append_read (st : VFS) (p a b : string) :
  is_directory st p = false ->
  let st1 := snd (write_file st p a false) in
  let st2 := snd (write_file st1 p b true) in
  read_file st2 p = Some (String.append a b).
Proof.
  intros Hnd st1 st2.
  rewrite is_directory_lookup in Hnd.
  set (q := normalize_path st p) in *.
  assert (Hq1 : normalize_path st1 p = q).
  { unfold st1. rewrite write_file_lookup. fold q.
    destruct (lookup _ q) as [[? ? [|] ?]|]; reflexivity. }
  assert (Hl1 : exists n, lookup (filesystem st1) q = Some (mkRow q n File a)).
  { unfold st1. rewrite write_file_lookup. fold q.
    destruct (lookup (filesystem st) q) as [r|] eqn:Hl.
    - destruct r as [rp rn [|] rc]; [|discriminate]. simpl.
      rewrite lookup_update, Hl. simpl.
      assert (rp = q) as ->.
      { unfold lookup in Hl. apply find_some in Hl as [_ Hl].
        now apply String.eqb_eq in Hl. }
      eauto.
    - simpl. exists (basename q). now apply lookup_app_new. }
  destruct Hl1 as [n Hl1].
  unfold st2. rewrite write_file_lookup, Hq1, Hl1. simpl.
  rewrite read_file_lookup. simpl. unfold set_filesystem. simpl.
  unfold normalize_path. simpl. fold (normalize_path st1 p). rewrite Hq1.
  rewrite lookup_update, Hl1. reflexivity.
Qed.

(** Witness of C7: a fresh file [/notes] receives "a" and then "b". *)
Lemma write_append_read_witness :
  is_directory vfs_init "/notes" = false /\
  read_file (snd (write_file (snd (write_file vfs_init "/notes" "a" false)) "/notes" "b" true))
            "/notes" = Some "ab".
Proof.
  split; [vm_compute; reflexivity|].
  exact (write_append_read vfs_init "/notes" "a" "b" eq_refl).
Defined.

(** ** Concrete runs *)

Definition listing_run : VFS :=
  run vfs_init [OMkdir "/a"; OMkdir "/a/b"; OWrite "/a/b/f" "x" false].

(** C1 (code): the pattern ["/a/[^/]*"] matches ["/a/b/f"], since the [*]
    of GLOB also matches ['/']: listing [/a] returns the grandchild [f]
    besides the child [b]. *)
Theorem list_directory_includes_grandchild :
  list_directory listing_run (Some "/a") = Some [("f", File); ("b", Directory)].
Proof. vm_compute. reflexivity. Qed.

Definition glob_name_run : VFS := run vfs_init [OMkdir "/home/x"; OMkdir "/*"].

(** C2 (code): the directory [/*] has no node nested under it, yet
    [remove("/*")] fails: the path is pasted into the GLOB pattern unescaped,
    and ["/*/[^/]*"] matches ["/home/x"]. *)
Theorem remove_glob_name_blocked :
  existsb (fun r => String.prefix "/*/" (path r)) (filesystem glob_name_run) = false /\
  is_directory glob_name_run "/*" = true /\
  fst (remove glob_name_run "/*") = false /\
  snd (remove glob_name_run "/*") = glob_name_run.
Proof. vm_compute. repeat split. Qed.

Definition root_removal_ops : list op :=
  [ORemove "/home"; ORemove "/tmp"; ORemove "/usr"; ORemove "/var";
   ORemove "/welcome.txt"; ORemove "/"].

(** C3 (counterexample): once every other node is removed, [remove("/")]
    succeeds and deletes the root. *)
Lemma root_removable :
  ~ (forall ops, exists r, lookup (filesystem (run vfs_init ops)) "/" = Some r /\
                           type r = Directory).
Proof.
  intros H. destruct (H root_removal_ops) as [r [Hr _]].
  vm_compute in Hr. discriminate.
Qed.

(** C4 (counterexample): [cd /tmp] then [rm /tmp] leaves the cursor on a
    path that no longer exists. *)
Lemma cursor_dangles :
  ~ (forall ops, let st := run vfs_init ops in
                 is_directory st (current_path st) = true).
Proof.
  intros H. specialize (H [OCd "/tmp"; ORemove "/tmp"]).
  vm_compute in H. discriminate.
Qed.

(** Directories before files, as the spec words the order. *)
Definition dirs_first (l : list (string * ftype)) : Prop :=
  forall i j x y, nth_error l i = Some x -> nth_error l j = Some y ->
                  snd x = Directory -> snd y = File -> i < j.

(** C5 (counterexample): [ORDER BY type DESC] puts ['file'] before
    ['directory']; the root of the initial store lists welcome.txt first. *)
Lemma listing_files_first :
  ~ (forall l, list_directory vfs_init (Some "/") = Some l -> dirs_first l).
Proof.
  intros H.
  assert (Hl : list_directory vfs_init (Some "/") =
               Some [("welcome.txt", File); ("home", Directory); ("tmp", Directory);
                     ("usr", Directory); ("var", Directory)])
    by (vm_compute; reflexivity).
  specialize (H _ Hl 1 0 ("home", Directory) ("welcome.txt", File)
                eq_refl eq_refl eq_refl eq_refl).
  lia.
Qed.

(** C6 (counterexample): [mkdir /welcome.txt/x] succeeds although its parent
    is a file. *)
Lemma mkdir_under_file :
  ~ (forall st p, fst (create_directory st p) = true ->
                  is_directory st (dirname (normalize_path st p)) = true).
Proof.
  intros H. specialize (H vfs_init "/welcome.txt/x" eq_refl).
  vm_compute in H. discriminate.
Qed.

(** ** Order of a listing *)

(** The order the code produces, in words: files before directories, and
    names in bytewise order within one type. *)
Definition listed_before (x y : string * ftype) : Prop :=
  (snd x = File /\ snd y = Directory) \/
  (snd x = snd y /\ String.leb (fst x) (fst y) = true).

Lemma order_cmp_antisym (x y : string * ftype) :
  order_cmp y x = CompOpp (order_cmp x y).
Proof.
  unfold order_cmp. rewrite (String.compare_antisym (type_str (snd x))).
  rewrite (String.compare_antisym (fst y)).
  destruct (String.compare (type_str (snd y)) (type_str (snd x))); reflexivity.
Qed.

Lemma order_cmp_listed_before (x y : string * ftype) :
  order_cmp x y <> Gt -> listed_before x y.
Proof.
  destruct x as [nx [|]], y as [ny [|]]; unfold order_cmp, listed_before, String.leb;
    simpl; intros H.
  - right. split; [reflexivity|]. destruct (String.compare nx ny); congruence.
  - left. split; reflexivity.
  - congruence.
  - right. split; [reflexivity|]. destruct (String.compare nx ny); congruence.
Qed.

Lemma insert_ordered_hd (x y : string * ftype) (l : list (string * ftype)) :
  HdRel (fun a b => order_cmp a b <> Gt) y l ->
  order_cmp y x <> Gt ->
  HdRel (fun a b => order_cmp a b <> Gt) y (insert_ordered x l).
Proof.
  intros Hl Hyx. destruct l as [|z l]; simpl.
  - now constructor.
  - inversion Hl; subst. destruct (order_cmp x z); now constructor.
Qed.

Lemma insert_ordered_sorted (x : string * ftype) (l : list (string * ftype)) :
  Sorted (fun a b => order_cmp a b <> Gt) l ->
  Sorted (fun a b => order_cmp a b <> Gt) (insert_ordered x l).
Proof.
  induction l as [|y l IH]; intros Hs; simpl.
  - repeat constructor.
  - inversion Hs as [|? ? Hl Hhd]; subst.
    destruct (order_cmp x y) eqn:E.
    + constructor; [exact Hs | constructor; congruence].
    + constructor; [exact Hs | constructor; congruence].
    + constructor; [exact (IH Hl)|].
      apply insert_ordered_hd; [exact Hhd|].
      rewrite order_cmp_antisym, E. discriminate.
Qed.

Lemma order_by_sorted (l : list (string * ftype)) :
  Sorted (fun a b => order_cmp a b <> Gt) (order_by l).
Proof.
  induction l as [|x l IH]; simpl; [constructor | now apply insert_ordered_sorted].
Qed.

Lemma sorted_weaken {A : Type} (R R' : A -> A -> Prop) (l : list A) :
  (forall a b, R a b -> R' a b) -> Sorted R l -> Sorted R' l.
Proof.
  intros HR Hs. induction Hs as [|a l Hs IH Hhd]; constructor; [exact IH|].
  destruct Hhd; constructor. now apply HR.
Qed.

(** C5 (amended): a listing is in the order of [ORDER BY type DESC, name]:
    each entry is followed by one of a later type ('file' before
    'directory') or of the same type and a name not smaller bytewise. *)
Theorem list_directory_ordered (st : VFS) (arg : option string)
    (l : list (string * ftype)) :
  list_directory st arg = Some l -> Sorted listed_before l.
Proof.
  unfold list_directory. intros H.
  destruct (_ || _); [discriminate|]. injection H as <-.
  eapply sorted_weaken; [|apply order_by_sorted].
  intros a b. apply order_cmp_listed_before.
Qed.

Lemma list_directory_ordered_witness :
  list_directory vfs_init (Some "/") =
    Some [("welcome.txt", File); ("home", Directory); ("tmp", Directory);
          ("usr", Directory); ("var", Directory)] /\
  Sorted listed_before [("welcome.txt", File); ("home", Directory); ("tmp", Directory);
                        ("usr", Directory); ("var", Directory)].
Proof.
  assert (H : list_directory vfs_init (Some "/") =
              Some [("welcome.txt", File); ("home", Directory); ("tmp", Directory);
                    ("usr", Directory); ("var", Directory)])
    by (vm_compute; reflexivity).
  split; [exact H | exact (list_directory_ordered vfs_init (Some "/") _ H)].
Defined.

(** ** Directory creation *)

(** C6 (amended): [create_directory p], with [q] the normalized [p], fails
    and changes nothing when [q] exists, or when [dirname q <> q] and
    [dirname q] does not exist; otherwise it appends the empty directory row
    [(q, basename q)], after which [p] is a directory.  The parent only has
    to exist: it may be a file. *)
Theorem create_directory_spec (st : VFS) (p : string) :
  let q := normalize_path st p in
  let res := create_directory st p in
  (fst res = true <->
     exists_ st q = false /\ (dirname q = q \/ exists_ st (dirname q) = true)) /\
  (fst res = true ->
     filesystem (snd res) = filesystem st ++ [mkRow q (basename q) Directory ""] /\
     current_path (snd res) = current_path st /\
     is_directory (snd res) p = true) /\
  (fst res = false -> snd res = st).
Proof.
  intros q res. unfold res, create_directory. fold q.
  destruct (exists_ st q) eqn:Ex.
  { simpl. split; [split; [discriminate | intros [H _]; discriminate]|].
    split; [discriminate | reflexivity]. }
  assert (Hn : lookup (filesystem st) q = None).
  { rewrite exists_lookup in Ex. unfold q in Ex |- *. rewrite normalize_path_idem in Ex.
    destruct (lookup _ _); [discriminate | reflexivity]. }
  assert (Hsucc : is_directory (set_filesystem st
                    (filesystem st ++ [mkRow q (basename q) Directory ""])) p = true).
  { rewrite is_directory_lookup. unfold normalize_path, set_filesystem. simpl.
    fold (normalize_path st p). fold q.
    rewrite (lookup_app_new _ _ (mkRow q (basename q) Directory "") Hn eq_refl).
    reflexivity. }
  destruct (dirname q =? q) eqn:Ed; simpl.
  - apply String.eqb_eq in Ed.
    split; [split; auto|]. split; [auto | discriminate].
  - apply String.eqb_neq in Ed.
    destruct (exists_ st (dirname q)) eqn:Ep; simpl.
    + split; [split; auto|]. split; [auto | discriminate].
    + split; [split; [discriminate | intros [_ [H|H]]; congruence]|].
      split; [discriminate | reflexivity].
Qed.

(** ** Reachable states *)

Definition canonical (p : string) : Prop := normalize_from "/" p = p.

Definition canon_rows (rows : list row) : Prop :=
  Forall (fun r => canonical (path r)) rows.

Lemma normalize_canonical (cur p : string) : canonical (normalize_from cur p).
Proof. apply normalize_from_idem. Qed.

Lemma normalize_starts_slash (cur p : string) :
  starts_with_slash (normalize_from cur p) = true.
Proof.
  destruct (normalize_rebuild cur p) as [[|q qs] [_ ->]]; reflexivity.
Qed.

Lemma run_invariant (P : VFS -> Prop) :
  (forall st o, P st -> P (snd (step st o))) ->
  forall ops st, P st -> P (run st ops).
Proof.
  intros Hstep ops. unfold run. induction ops as [|o ops IH]; intros st Hst; simpl.
  - exact Hst.
  - apply IH, Hstep, Hst.
Qed.

Lemma update_content_path (q c : string) (r : row) : path (update_content q c r) = path r.
Proof. unfold update_content. now destruct (path r =? q). Qed.

Lemma forall_filter {A : Type} (P : A -> Prop) (f : A -> bool) (l : list A) :
  Forall P l -> Forall P (filter f l).
Proof.
  intros H. apply Forall_forall. intros x Hx. apply filter_In in Hx as [Hx _].
  exact (proj1 (Forall_forall P l) H x Hx).
Qed.

(** Every step keeps the stored paths canonical. *)
Lemma step_canon_rows (st : VFS) (o : op) :
  canon_rows (filesystem st) -> canon_rows (filesystem (snd (step st o))).
Proof.
  intros Hc. destruct o as [p c a|p|p|p|]; simpl.
  - rewrite write_file_lookup.
    destruct (lookup _ _) as [r|]; [destruct (ftype_eqb _ _)|]; simpl; [| exact Hc |].
    + apply Forall_map. eapply Forall_impl; [|exact Hc].
      intros r' Hr'. now rewrite update_content_path.
    + apply Forall_app. split; [exact Hc|]. constructor; [apply normalize_canonical | constructor].
  - unfold create_directory.
    destruct (exists_ _ _); [exact Hc|].
    destruct (_ && _); simpl; [exact Hc|].
    apply Forall_app. split; [exact Hc|]. constructor; [apply normalize_canonical | constructor].
  - unfold remove. destruct (negb _); [exact Hc|].
    destruct (is_directory _ _); [destruct (Nat.ltb _ _)|]; simpl;
      [exact Hc | apply forall_filter, Hc | apply forall_filter, Hc].
  - unfold change_directory. destruct (_ || _); exact Hc.
  - vm_compute. repeat constructor.
Qed.

Lemma reachable_canon_rows (ops : list op) : canon_rows (filesystem (run vfs_init ops)).
Proof.
  apply (run_invariant (fun st => canon_rows (filesystem st))).
  - intros st o. apply step_canon_rows.
  - vm_compute. repeat constructor.
Qed.

(** How one step moves the cursor. *)
Definition cursor_moves (st : VFS) (o : op) : Prop :=
  current_path (snd (step st o)) = current_path st \/
  (exists p, o = OCd p /\ fst (step st o) = true /\ is_directory st p = true /\
             current_path (snd (step st o)) = normalize_path st p) \/
  (o = OReset /\ current_path (snd (step st o)) = "/").

Lemma step_cursor (st : VFS) (o : op) : cursor_moves st o.
Proof.
  unfold cursor_moves. destruct o as [p c a|p|p|p|]; simpl.
  - left. rewrite write_file_lookup.
    destruct (lookup _ _) as [r|]; [destruct (ftype_eqb _ _)|]; reflexivity.
  - left. unfold create_directory.
    destruct (exists_ _ _); [|destruct (_ && _)]; reflexivity.
  - left. unfold remove. destruct (negb _); [reflexivity|].
    destruct (is_directory _ _); [destruct (Nat.ltb _ _)|]; reflexivity.
  - unfold change_directory.
    destruct (exists_ st (normalize_path st p)) eqn:Ex; simpl; [|left; reflexivity].
    destruct (is_directory st (normalize_path st p)) eqn:Ed; simpl; [|left; reflexivity].
    right. left. exists p. repeat split.
    rewrite is_directory_lookup, normalize_path_idem in Ed.
    now rewrite is_directory_lookup.
  - right. right. split; reflexivity.
Qed.

Lemma reachable_cursor_canonical (ops : list op) :
  canonical (current_path (run vfs_init ops)).
Proof.
  apply (run_invariant (fun st => canonical (current_path st))); [|reflexivity].
  intros st o Hc. destruct (step_cursor st o) as [H|[[p [_ [_ [_ H]]]]|[_ H]]];
    rewrite H; [exact Hc | apply normalize_canonical | reflexivity].
Qed.

(** C4 (amended): in every reachable state the cursor is an absolute,
    canonical path; an operation leaves it unchanged, except a successful
    [change_directory p], which sets it to the normalized [p] after checking
    that [p] is a directory, and [reset], which sets it to [/].  Nothing
    moves it when [remove] deletes the directory it names. *)
Theorem cursor_discipline (ops : list op) (o : op) :
  let st := run vfs_init ops in
  starts_with_slash (current_path st) = true /\
  canonical (current_path st) /\
  cursor_moves st o.
Proof.
  intros st. pose proof (reachable_cursor_canonical ops) as Hc. fold st in Hc.
  split; [|split; [exact Hc | apply step_cursor]].
  rewrite <- Hc. apply normalize_starts_slash.
Qed.

(** ** The root row *)

Definition root_ok (rows : list row) : Prop :=
  exists r, filter (fun r => path r =? "/") rows = [r] /\ type r = Directory.

Lemma lookup_filter (rows : list row) (q : string) :
  lookup rows q = hd_error (filter (fun r => path r =? q) rows).
Proof.
  unfold lookup. induction rows as [|r rows IH]; simpl; [reflexivity|].
  destruct (path r =? q); [reflexivity | exact IH].
Qed.

Lemma gmatch_star (s : list N) : gmatch [GStar] s = true.
Proof. induction s as [|c s IH]; [reflexivity|]. simpl in *. exact IH. Qed.

Lemma join_first (sep : string) (c : ascii) (p : string) (ps : list string) :
  exists rest, join sep (String c p :: ps) = String c rest.
Proof. destruct ps; simpl; eauto. Qed.

(** *** Reading characters *)

Lemma utf8_fix_high (c : N) : (0x80 <= utf8_fix c)%N.
Proof.
  unfold utf8_fix.
  destruct (c <? 0x80)%N eqn:E; simpl; [lia|].
  destruct (_ || _); [lia|]. apply N.ltb_ge in E. exact E.
Qed.

Lemma utf8_dec_some (c : N) (s : string) :
  exists d ds, utf8_dec (Some c) s = utf8_fix d :: ds.
Proof.
  revert c. induction s as [|b s IH]; intros c; simpl; [eauto|].
  destruct (N.land (N_of_ascii b) 0xC0 =? 0x80)%N; [apply IH | eauto].
Qed.

(** The first character read from a byte string: the byte itself when it
    is below [0xc0], otherwise a character from [0x80] on. *)
Lemma utf8_dec_first (b : ascii) (s : string) :
  exists d ds, utf8_dec None (String b s) = d :: ds /\
    ((N_of_ascii b < 0xC0)%N /\ d = N_of_ascii b \/
     (0xC0 <= N_of_ascii b)%N /\ (0x80 <= d)%N).
Proof.
  simpl. destruct (N_of_ascii b <? 0xC0)%N eqn:E.
  - apply N.ltb_lt in E. do 2 eexists. split; [reflexivity | left; split; [exact E | reflexivity]].
  - apply N.ltb_ge in E. destruct (utf8_dec_some (utf8_trans1 (N_of_ascii b)) s) as [d [ds H]].
    rewrite H. exists (utf8_fix d), ds. split; [reflexivity|]. right.
    split; [exact E | apply utf8_fix_high].
Qed.

Lemma sql_chars_cons (b : ascii) (s : string) :
  sql_chars (String b s) =
  if Ascii.eqb b nul then [] else utf8_dec None (String b (cstr_cut s)).
Proof. unfold sql_chars. simpl. destruct (Ascii.eqb b nul); reflexivity. Qed.

Lemma sql_chars_ascii (b : ascii) (s : string) :
  Ascii.eqb b nul = false -> (N_of_ascii b < 0xC0)%N ->
  sql_chars (String b s) = N_of_ascii b :: sql_chars s.
Proof.
  intros Hn Hb. rewrite sql_chars_cons, Hn. simpl.
  apply N.ltb_lt in Hb. rewrite Hb. reflexivity.
Qed.

Lemma N_of_ascii_inj (a b : ascii) : N_of_ascii a = N_of_ascii b -> a = b.
Proof.
  intros H. rewrite <- (ascii_N_embedding a), <- (ascii_N_embedding b). now f_equal.
Qed.

Lemma nul_code (c : ascii) : Ascii.eqb c nul = (N_of_ascii c =? 0)%N.
Proof.
  destruct (Ascii.eqb_spec c nul) as [->|E]; [reflexivity|].
  symmetry. apply N.eqb_neq. intros H. apply E, N_of_ascii_inj. rewrite H. reflexivity.
Qed.

Definition slash_tail : list gtok := [GLit 47%N; GClass true [GSingle 47%N]; GStar].

(** The tail ["/[^/]*"] of a child pattern matches exactly a ['/'] followed
    by a character that is neither ['/'] nor NUL, and anything after. *)
Lemma slash_tail_match (x : string) :
  gmatch slash_tail (sql_chars x) = true <->
  exists c r, x = String "/"%char (String c r) /\ c <> "/"%char /\ c <> nul.
Proof.
  split.
  - intros H. destruct x as [|a x1]; [discriminate|].
    rewrite sql_chars_cons in H.
    destruct (Ascii.eqb a nul) eqn:Ea; [discriminate|].
    destruct (utf8_dec_first a (cstr_cut x1)) as [d [ds [Hd Hcase]]].
    rewrite Hd in H. unfold slash_tail in H. cbn -[N.eqb] in H.
    apply andb_true_iff in H as [Hda H].
    apply N.eqb_eq in Hda. subst d.
    destruct Hcase as [[Hlt Heq] | [_ Hge]]; [|lia].
    assert (a = "/"%char) as -> by (apply N_of_ascii_inj; rewrite <- Heq; reflexivity).
    simpl in Hd. injection Hd as Hds. subst ds.
    destruct x1 as [|c r]; [discriminate|].
    simpl cstr_cut in H. destruct (Ascii.eqb c nul) eqn:Ec; [discriminate|].
    exists c, r. split; [reflexivity|]. split.
    + intros ->. simpl in H. discriminate.
    + intros ->. rewrite Ascii.eqb_refl in Ec. discriminate.
  - intros [c [r [-> [Hc Hn]]]].
    rewrite sql_chars_ascii by reflexivity.
    rewrite sql_chars_cons. destruct (Ascii.eqb_spec c nul) as [E|_]; [contradiction|].
    destruct (utf8_dec_first c (cstr_cut r)) as [d [ds [Hd Hcase]]].
    rewrite Hd. unfold slash_tail. cbn -[N.eqb].
    assert (Hd47 : (d =? 47)%N = false).
    { apply N.eqb_neq. intros ->. destruct Hcase as [[_ Heq] | [_ Hge]]; [|lia].
      apply Hc, N_of_ascii_inj. rewrite <- Heq. reflexivity. }
    rewrite Hd47. simpl. fold (gmatch [GStar] ds). apply gmatch_star.
Qed.

(** *** Patterns with a literal prefix *)

(** A byte that stands for itself in a pattern: ASCII, not NUL, and none
    of [*], [?], [[]. *)
Definition plain_char (c : ascii) : bool :=
  let n := N_of_ascii c in
  negb (n =? 0)%N && (n <? 0x80)%N &&
  negb (n =? 42)%N && negb (n =? 63)%N && negb (n =? 91)%N.

Fixpoint plain (s : string) : bool :=
  match s with
  | EmptyString => true
  | String c s' => plain_char c && plain s'
  end.

Fixpoint codes (s : string) : list N :=
  match s with
  | EmptyString => []
  | String c s' => N_of_ascii c :: codes s'
  end.

Lemma plain_char_facts (c : ascii) :
  plain_char c = true ->
  Ascii.eqb c nul = false /\ (N_of_ascii c < 0x80)%N /\
  (N_of_ascii c =? 42)%N = false /\ (N_of_ascii c =? 63)%N = false /\
  (N_of_ascii c =? 91)%N = false.
Proof.
  unfold plain_char. cbv zeta. intros H.
  apply andb_true_iff in H as [H H5]. apply andb_true_iff in H as [H H4].
  apply andb_true_iff in H as [H H3]. apply andb_true_iff in H as [H1 H2].
  apply negb_true_iff in H1, H3, H4, H5.
  rewrite nul_code. repeat split; try assumption. apply N.ltb_lt. assumption.
Qed.

Lemma sql_chars_plain_app (q t : string) :
  plain q = true -> sql_chars (String.append q t) = codes q ++ sql_chars t.
Proof.
  induction q as [|c q IH]; intros Hq; [reflexivity|].
  simpl in Hq. apply andb_true_iff in Hq as [Hc Hq].
  destruct (plain_char_facts c Hc) as [Hn [Hlt _]].
  simpl String.append. rewrite sql_chars_ascii by (exact Hn || lia).
  rewrite IH by exact Hq. reflexivity.
Qed.

Lemma sql_chars_plain_inv (q x : string) (s' : list N) :
  plain q = true -> sql_chars x = codes q ++ s' ->
  exists x', x = String.append q x' /\ sql_chars x' = s'.
Proof.
  revert x. induction q as [|a q IH]; intros x Hq Hx;
    [exists x; split; [reflexivity | exact Hx] |].
  simpl in Hq. apply andb_true_iff in Hq as [Ha Hq].
  destruct (plain_char_facts a Ha) as [_ [Halt _]].
  destruct x as [|b x1]; [discriminate|].
  rewrite sql_chars_cons in Hx. destruct (Ascii.eqb b nul) eqn:Eb; [discriminate|].
  destruct (utf8_dec_first b (cstr_cut x1)) as [d [ds [Hd Hcase]]].
  rewrite Hd in Hx. simpl in Hx. injection Hx as Hda Hds.
  destruct Hcase as [[Hlt Heq] | [_ Hge]]; [|lia].
  assert (b = a) as -> by (apply N_of_ascii_inj; congruence).
  simpl in Hd. apply N.ltb_lt in Hlt. rewrite Hlt in Hd. injection Hd as _ Hd.
  destruct (IH x1 Hq) as [x' [-> H']].
  - unfold sql_chars. rewrite Hd. exact Hds.
  - exists x'. split; [reflexivity | exact H'].
Qed.

Lemma tokenize_plain (q : string) (t : list N) (n : nat) :
  plain q = true -> String.length q <= n ->
  tokenize n (codes q ++ t) = map GLit (codes q) ++ tokenize (n - String.length q) t.
Proof.
  revert n. induction q as [|c q IH]; intros n Hq Hn; simpl.
  - now rewrite Nat.sub_0_r.
  - destruct n as [|n]; [simpl in Hn; lia|].
    simpl in Hq. apply andb_true_iff in Hq as [Hc Hq].
    destruct (plain_char_facts c Hc) as [_ [_ [H1 [H2 H3]]]].
    simpl. rewrite H1, H2, H3. f_equal. apply IH; [exact Hq | simpl in Hn; lia].
Qed.

Lemma gmatch_lits (l : list N) (ts : list gtok) (s : list N) :
  gmatch (map GLit l ++ ts) s = true <->
  exists s', s = l ++ s' /\ gmatch ts s' = true.
Proof.
  revert s. induction l as [|c l IH]; intros s; simpl.
  - split; [eauto | intros [s' [-> H]]; exact H].
  - destruct s as [|c' s]; simpl.
    + split; [discriminate | intros [s' [H _]]; discriminate].
    + rewrite andb_true_iff, IH. split.
      * intros [Hc [s' [-> H]]]. apply N.eqb_eq in Hc. subst. eauto.
      * intros [s' [Hs H]]. injection Hs as -> ->. split; [apply N.eqb_refl | eauto].
Qed.

Lemma string_length_append (a b : string) :
  String.length (String.append a b) = String.length a + String.length b.
Proof. induction a as [|c a IH]; simpl; [reflexivity | now rewrite IH]. Qed.

Lemma codes_length (q : string) : List.length (codes q) = String.length q.
Proof. induction q as [|c q IH]; simpl; [reflexivity | now rewrite IH]. Qed.

(** For a directory path [q] made of plain bytes, [value GLOB q/[^/]*]
    holds exactly when the value is [q], a ['/'], then a character that
    is neither ['/'] nor NUL, then anything. *)
Lemma glob_child_bytes (q x : string) :
  plain q = true ->
  glob (String.append q "/[^/]*") x = true <->
  exists c r, x = String.append q (String "/"%char (String c r)) /\
              c <> "/"%char /\ c <> nul.
Proof.
  intros Hq. unfold glob.
  rewrite sql_chars_plain_app by exact Hq.
  change (sql_chars "/[^/]*") with [47; 91; 94; 47; 93; 42]%N.
  rewrite tokenize_plain by (exact Hq || (rewrite length_app, codes_length; simpl; lia)).
  rewrite length_app, codes_length. simpl List.length.
  replace (S (String.length q + 6) - String.length q) with 7 by lia.
  change (tokenize 7 [47; 91; 94; 47; 93; 42]%N) with slash_tail.
  rewrite gmatch_lits. split.
  - intros [s' [Hs H]].
    destruct (sql_chars_plain_inv q x s' Hq Hs) as [x' [-> Hx']].
    rewrite <- Hx' in H. apply slash_tail_match in H as [c [r [-> Hc]]]. eauto.
  - intros [c [r [-> Hc]]]. rewrite sql_chars_plain_app by exact Hq.
    eexists. split; [reflexivity|]. apply slash_tail_match. eauto.
Qed.

(** A canonical path other than [/] is [/], a character other than ['/'],
    and the rest. *)
Lemma canonical_second (x : string) :
  canonical x -> x <> "/" -> exists c r, x = String "/"%char (String c r) /\ c <> "/"%char.
Proof.
  intros Hx Hne. unfold canonical in Hx.
  destruct (normalize_rebuild "/" x) as [parts [Hg Hr]]. rewrite Hx in Hr.
  destruct parts as [|p ps]; [contradiction|].
  pose proof (Forall_inv Hg) as Hp. simpl in Hp.
  unfold good_part in Hp.
  destruct p as [|c p]; [discriminate|].
  simpl in Hp. apply andb_true_iff in Hp as [_ Hp]. apply andb_true_iff in Hp as [Hc _].
  apply negb_true_iff in Hc.
  destruct (join_first "/" c p ps) as [rest Hj].
  unfold rebuild in Hr. rewrite Hj in Hr. rewrite Hr.
  exists c, rest. split; [reflexivity|]. intros ->. discriminate.
Qed.

(** The root's pattern ["/[^/]*"] misses a canonical path other than [/]
    exactly when its second character is NUL (SQLite reads the value only
    up to the NUL). *)
Lemma root_pattern_matches (x : string) :
  canonical x -> x <> "/" ->
  glob (child_pattern "/") x = true \/ exists rest, x = String "/"%char (String nul rest).
Proof.
  intros Hx Hne. destruct (canonical_second x Hx Hne) as [c [r [-> Hc]]].
  destruct (Ascii.eqb_spec c nul) as [->|Hn]; [right; eauto|].
  left. change (child_pattern "/") with (String.append "" "/[^/]*").
  apply glob_child_bytes; [reflexivity|]. exists c, r. auto.
Qed.

Lemma filter_root_update (rows : list row) (q c : string) :
  q <> "/" ->
  filter (fun r => path r =? "/") (map (update_content q c) rows) =
  filter (fun r => path r =? "/") rows.
Proof.
  intros Hq. induction rows as [|r rows IH]; simpl; [reflexivity|].
  rewrite update_content_path. destruct (path r =? "/") eqn:E; [|exact IH].
  f_equal; [|exact IH]. unfold update_content.
  apply String.eqb_eq in E. rewrite E.
  destruct (String.eqb_spec "/" q); [congruence | reflexivity].
Qed.

Lemma filter_root_app_new (rows : list row) (r : row) :
  path r <> "/" ->
  filter (fun r => path r =? "/") (rows ++ [r]) = filter (fun r => path r =? "/") rows.
Proof.
  intros Hr. rewrite filter_app. simpl.
  destruct (String.eqb_spec (path r) "/"); [contradiction|]. apply app_nil_r.
Qed.

Lemma filter_root_delete (rows : list row) (q : string) :
  q <> "/" ->
  filter (fun r => path r =? "/") (filter (fun r => negb (path r =? q)) rows) =
  filter (fun r => path r =? "/") rows.
Proof.
  intros Hq. induction rows as [|r rows IH]; simpl; [reflexivity|].
  destruct (String.eqb_spec (path r) q) as [E|E]; simpl.
  - destruct (String.eqb_spec (path r) "/"); [congruence | exact IH].
  - destruct (path r =? "/"); [f_equal|]; exact IH.
Qed.

Lemma root_lookup (rows : list row) :
  root_ok rows -> exists r, lookup rows "/" = Some r /\ type r = Directory.
Proof.
  intros [r [Hf Ht]]. exists r. rewrite lookup_filter, Hf. auto.
Qed.

Lemma no_match_all_root (rows : list row) :
  canon_rows rows ->
  Nat.ltb 0 (List.length (filter (fun r => glob (child_pattern "/") (path r)) rows)) = false ->
  Forall (fun r => path r = "/" \/ exists rest, path r = String "/"%char (String nul rest)) rows.
Proof.
  intros Hc Hn. apply Forall_forall. intros r Hr.
  destruct (String.eqb_spec (path r) "/") as [E|E]; [left; exact E|].
  destruct (root_pattern_matches (path r)) as [Hm|Hm];
    [exact (proj1 (Forall_forall _ rows) Hc r Hr) | exact E | | right; exact Hm].
  assert (Hin : In r (filter (fun r => glob (child_pattern "/") (path r)) rows))
    by (apply filter_In; split; [exact Hr | exact Hm]).
  destruct (filter _ rows); [contradiction | discriminate].
Qed.

(** C3 (amended): in every reachable state that holds exactly one row for
    [/], a directory, each operation keeps it so, with one exception:
    [remove] of a path normalizing to [/] when every other node's path has
    a NUL right after the leading ['/'] (in particular when the root is
    the only node) deletes the root row and keeps the other rows.  While
    any other node exists, [remove("/")] fails. *)
Theorem root_kept (ops : list op) (o : op) :
  let st := run vfs_init ops in
  root_ok (filesystem st) ->
  root_ok (filesystem (snd (step st o))) \/
  (exists p, o = ORemove p /\ normalize_path st p = "/" /\
             Forall (fun r => path r = "/" \/ exists rest, path r = String "/"%char (String nul rest))
                    (filesystem st) /\
             filesystem (snd (step st o)) = filter (fun r => negb (path r =? "/")) (filesystem st)).
Proof.
  intros st Hroot.
  pose proof (reachable_canon_rows ops) as Hcanon. fold st in Hcanon.
  destruct (root_lookup _ Hroot) as [r0 [Hl0 Ht0]].
  destruct o as [p c a|p|p|p|]; simpl.
  - left. rewrite write_file_lookup.
    set (q := normalize_path st p).
    destruct (String.eqb_spec q "/") as [Eq|Nq].
    + rewrite Eq, Hl0, Ht0. exact Hroot.
    + destruct (lookup (filesystem st) q) as [r|]; [destruct (ftype_eqb _ _)|]; simpl.
      * unfold root_ok. rewrite filter_root_update by exact Nq. exact Hroot.
      * exact Hroot.
      * unfold root_ok. rewrite filter_root_app_new by exact Nq. exact Hroot.
  - left. unfold create_directory.
    set (q := normalize_path st p).
    destruct (exists_ st q) eqn:Ex; [exact Hroot|].
    assert (Nq : q <> "/").
    { intros Eq. rewrite exists_lookup in Ex. unfold q in Ex.
      rewrite normalize_path_idem in Ex. fold q in Ex.
      rewrite Eq, Hl0 in Ex. discriminate. }
    destruct (_ && _); simpl; [exact Hroot|].
    unfold root_ok. rewrite filter_root_app_new by exact Nq. exact Hroot.
  - unfold remove. set (q := normalize_path st p).
    destruct (negb (exists_ st q)); [left; exact Hroot|].
    destruct (String.eqb_spec q "/") as [Eq|Nq].
    + assert (Hd : is_directory st q = true).
      { rewrite is_directory_lookup. unfold q. rewrite normalize_path_idem. fold q.
        rewrite Eq, Hl0, Ht0. reflexivity. }
      rewrite Hd, Eq.
      destruct (Nat.ltb 0 _) eqn:Ecount; [left; exact Hroot|].
      right. exists p.
      pose proof (no_match_all_root _ Hcanon Ecount) as Hall.
      repeat split; [exact Eq | exact Hall].
    + left. destruct (is_directory st q); [destruct (Nat.ltb _ _)|]; simpl;
        try exact Hroot; unfold root_ok; rewrite filter_root_delete by exact Nq;
        exact Hroot.
  - left. unfold change_directory. destruct (_ || _); exact Hroot.
  - left. exists (mkRow "/" "root" Directory ""). split; reflexivity.
Qed.

Definition hidden_child_run : VFS :=
  run vfs_init [ORemove "/home"; ORemove "/tmp"; ORemove "/usr"; ORemove "/var";
                ORemove "/welcome.txt"; OWrite (String "/"%char (String nul "x")) "" false].

Lemma root_kept_witness :
  root_ok (filesystem hidden_child_run) /\
  (root_ok (filesystem (snd (step hidden_child_run (ORemove "/")))) \/
   (exists p, ORemove "/" = ORemove p /\ normalize_path hidden_child_run p = "/" /\
              Forall (fun r => path r = "/" \/
                               exists rest, path r = String "/"%char (String nul rest))
                     (filesystem hidden_child_run) /\
              filesystem (snd (step hidden_child_run (ORemove "/"))) =
              filter (fun r => negb (path r =? "/")) (filesystem hidden_child_run))).
Proof.
  assert (H : root_ok (filesystem hidden_child_run))
    by (exists (mkRow "/" "root" Directory ""); split; vm_compute; reflexivity).
  split; [exact H|].
  exact (root_kept [ORemove "/home"; ORemove "/tmp"; ORemove "/usr"; ORemove "/var";
                    ORemove "/welcome.txt"; OWrite (String "/"%char (String nul "x")) "" false]
                   (ORemove "/") H).
Defined.

(** * Further properties of the VFS methods *)

Lemma normalize_set (st : VFS) (rows : list row) (p : string) :
  normalize_path (set_filesystem st rows) p = normalize_path st p.
Proof. reflexivity. Qed.

Lemma filesystem_set (st : VFS) (rows : list row) :
  filesystem (set_filesystem st rows) = rows.
Proof. reflexivity. Qed.

Lemma lookup_app_end (rows : list row) (r : row) (x : string) :
  lookup (rows ++ [r]) x =
  match lookup rows x with
  | Some r' => Some r'
  | None => if path r =? x then Some r else None
  end.
Proof.
  unfold lookup. induction rows as [|r' rows IH]; simpl; [reflexivity|].
  destruct (path r' =? x); [reflexivity | exact IH].
Qed.

Lemma lookup_update_other (rows : list row) (q c x : string) :
  x <> q -> lookup (map (update_content q c) rows) x = lookup rows x.
Proof.
  intros Hx. unfold lookup. induction rows as [|r rows IH]; simpl; [reflexivity|].
  rewrite update_content_path. destruct (String.eqb_spec (path r) x) as [E|E].
  - unfold update_content. destruct (String.eqb_spec (path r) q); [congruence | reflexivity].
  - exact IH.
Qed.

Lemma lookup_delete (rows : list row) (q x : string) :
  lookup (filter (fun r => negb (path r =? q)) rows) x =
  if x =? q then None else lookup rows x.
Proof.
  unfold lookup. induction rows as [|r rows IH]; simpl.
  - now destruct (x =? q).
  - destruct (String.eqb_spec (path r) q) as [E|E]; simpl.
    + rewrite IH. destruct (String.eqb_spec x q); [reflexivity|].
      destruct (String.eqb_spec (path r) x); [congruence | reflexivity].
    + destruct (String.eqb_spec (path r) x) as [E'|E'].
      * destruct (String.eqb_spec x q); [congruence | reflexivity].
      * exact IH.
Qed.

(** [write_file] then [read_file] on a path that is not a directory returns
    what was written; the write reports success. *)
Theorem write_read_roundtrip (st : VFS) (p c : string) :
  is_directory st p = false ->
  fst (write_file st p c false) = true /\
  read_file (snd (write_file st p c false)) p = Some c.
Proof.
  intros Hnd. rewrite is_directory_lookup in Hnd.
  rewrite write_file_lookup. cbv zeta.
  destruct (lookup (filesystem st) (normalize_path st p)) as [[rp rn [|] rc]|] eqn:Hl;
    [| discriminate |]; simpl; split; try reflexivity;
    rewrite read_file_lookup, normalize_set, filesystem_set.
  - rewrite lookup_update, Hl. reflexivity.
  - rewrite (lookup_app_new _ _ (mkRow (normalize_path st p) (basename (normalize_path st p)) File c)
               Hl eq_refl).
    reflexivity.
Qed.

Lemma write_read_roundtrip_witness :
  is_directory vfs_init "tmp/n" = false /\
  (fst (write_file vfs_init "tmp/n" "hi" false) = true /\
   read_file (snd (write_file vfs_init "tmp/n" "hi" false)) "tmp/n" = Some "hi").
Proof.
  split; [vm_compute; reflexivity | exact (write_read_roundtrip vfs_init "tmp/n" "hi" eq_refl)].
Defined.

(** Writing to a path that is a directory is refused and changes nothing. *)
Theorem write_directory_rejected (st : VFS) (p c : string) (append : bool) :
  is_directory st p = true -> write_file st p c append = (false, st).
Proof.
  intros Hd. rewrite is_directory_lookup in Hd. rewrite write_file_lookup. cbv zeta.
  destruct (lookup _ _) as [[rp rn [|] rc]|]; [discriminate | reflexivity | discriminate].
Qed.

Lemma write_directory_rejected_witness :
  is_directory vfs_init "/home" = true /\ write_file vfs_init "/home" "x" true = (false, vfs_init).
Proof.
  split; [vm_compute; reflexivity | exact (write_directory_rejected vfs_init "/home" "x" true eq_refl)].
Defined.

(** [write_file] touches only its own path: the row found at any other
    path, and the cursor, are the same afterwards. *)
Theorem write_file_frame (st : VFS) (p c : string) (append : bool) (x : string) :
  x <> normalize_path st p ->
  lookup (filesystem (snd (write_file st p c append))) x = lookup (filesystem st) x /\
  current_path (snd (write_file st p c append)) = current_path st.
Proof.
  intros Hx. rewrite write_file_lookup. cbv zeta.
  destruct (lookup (filesystem st) (normalize_path st p)) as [[rp rn [|] rc]|]; simpl;
    split; try reflexivity.
  - apply lookup_update_other, Hx.
  - rewrite lookup_app_end. destruct (lookup (filesystem st) x); [reflexivity|].
    simpl. destruct (String.eqb_spec (normalize_path st p) x); [congruence | reflexivity].
Qed.

Lemma write_file_frame_witness :
  "/tmp" <> normalize_path vfs_init "a" /\
  lookup (filesystem (snd (write_file vfs_init "a" "c" false))) "/tmp" =
    lookup (filesystem vfs_init) "/tmp" /\
  current_path (snd (write_file vfs_init "a" "c" false)) = current_path vfs_init.
Proof.
  assert (H : "/tmp" <> normalize_path vfs_init "a") by (vm_compute; discriminate).
  split; [exact H | exact (write_file_frame vfs_init "a" "c" false "/tmp" H)].
Defined.

(** Removing a file always succeeds: afterwards the path does not exist,
    every other path finds the same row, and the cursor is unchanged. *)
Theorem remove_file (st : VFS) (p : string) :
  is_file st p = true ->
  let res := remove st p in
  fst res = true /\ exists_ (snd res) p = false /\
  current_path (snd res) = current_path st /\
  (forall x, x <> normalize_path st p ->
             lookup (filesystem (snd res)) x = lookup (filesystem st) x).
Proof.
  intros Hf res. unfold res, remove.
  assert (He : exists_ st (normalize_path st p) = true).
  { rewrite exists_lookup, normalize_path_idem. rewrite is_file_lookup in Hf.
    destruct (lookup _ _); [reflexivity | discriminate]. }
  assert (Hd : is_directory st (normalize_path st p) = false).
  { rewrite is_directory_lookup, normalize_path_idem. rewrite is_file_lookup in Hf.
    destruct (lookup _ _) as [[? ? [|] ?]|]; [reflexivity | discriminate | discriminate]. }
  rewrite He, Hd. simpl. repeat split.
  - rewrite exists_lookup, normalize_set, filesystem_set.
    rewrite lookup_delete, String.eqb_refl. reflexivity.
  - intros x Hx. rewrite lookup_delete.
    destruct (String.eqb_spec x (normalize_path st p)); [contradiction | reflexivity].
Qed.

Lemma remove_file_witness :
  is_file vfs_init "welcome.txt" = true /\
  (fst (remove vfs_init "welcome.txt") = true /\
   exists_ (snd (remove vfs_init "welcome.txt")) "welcome.txt" = false /\
   current_path (snd (remove vfs_init "welcome.txt")) = current_path vfs_init /\
   (forall x, x <> normalize_path vfs_init "welcome.txt" ->
              lookup (filesystem (snd (remove vfs_init "welcome.txt"))) x =
              lookup (filesystem vfs_init) x)).
Proof.
  split; [vm_compute; reflexivity | exact (remove_file vfs_init "welcome.txt" eq_refl)].
Defined.

(** [change_directory] succeeds exactly on directories; it never changes the
    table, and moves the cursor to the normalized path only on success. *)
Theorem change_directory_guard (st : VFS) (p : string) :
  let res := change_directory st p in
  fst res = is_directory st p /\
  filesystem (snd res) = filesystem st /\
  current_path (snd res) =
    (if is_directory st p then normalize_path st p else current_path st).
Proof.
  intros res. unfold res, change_directory.
  rewrite (exists_lookup st (normalize_path st p)), (is_directory_lookup st (normalize_path st p)),
    normalize_path_idem.
  rewrite (is_directory_lookup st p).
  destruct (lookup _ _) as [[? ? [|] ?]|]; simpl; repeat split.
Qed.

(** ** Path normalization *)

(** [normalize_path] always yields a canonical absolute path: [/], or [/]
    followed by segments joined with [/], each nonempty, free of [/] and
    neither [.] nor [..]. *)
Theorem normalize_canonical_form (b p : string) :
  normalize_from b p = "/" \/
  exists parts, parts <> [] /\ Forall (fun q => good_part q = true) parts /\
                normalize_from b p = String.append "/" (join "/" parts).
Proof.
  destruct (normalize_rebuild b p) as [[|q qs] [Hg ->]]; [left; reflexivity|].
  right. exists (q :: qs). split; [discriminate | split; [exact Hg | reflexivity]].
Qed.

(** A [..] right after the root is dropped: [/../rest] normalizes like
    [/rest]. *)
Theorem normalize_dotdot_at_root (b r : string) :
  normalize_from b (String "/" (String "." (String "." (String "/" r)))) =
  normalize_from b (String "/" r).
Proof. reflexivity. Qed.

Lemma split_slash_app (a b : string) :
  split_slash (String.append a (String "/"%char b)) = split_slash a ++ split_slash b.
Proof.
  induction a as [|c a IH]; simpl; [reflexivity|].
  rewrite IH. destruct (Ascii.eqb c slash); [reflexivity|].
  destruct (split_slash_cons a) as [h [t ->]]. reflexivity.
Qed.

Lemma rev_tl_rev {A : Type} (l : list A) : rev (tl (rev l)) = removelast l.
Proof.
  destruct l as [|a l]; [reflexivity|].
  destruct (exists_last (l := a :: l) ltac:(discriminate)) as [l' [x ->]].
  rewrite rev_app_distr, removelast_last. simpl. apply rev_involutive.
Qed.

Lemma split_slash_word_alone (w : string) :
  no_slash w = true -> split_slash w = [w].
Proof.
  intros H. rewrite <- (append_empty_r w), (split_slash_word _ _ H). simpl.
  now rewrite append_empty_r.
Qed.

Lemma rebuild_cons_not_root (parts : list string) :
  parts <> [] -> Forall (fun q => good_part q = true) parts ->
  (rebuild parts =? "/") = false.
Proof.
  intros Hne Hg. destruct parts as [|p ps]; [congruence|].
  pose proof (Forall_inv Hg) as Hp. simpl in Hp. unfold good_part in Hp.
  destruct p as [|c p]; [discriminate|].
  destruct (join_first "/" c p ps) as [rest Hj]. unfold rebuild. rewrite Hj. reflexivity.
Qed.

Definition absolute_of (cur path : string) : string :=
  if starts_with_slash path then path
  else if cur =? "/" then String.append "/" path
  else String.append cur (String.append "/" path).

Lemma normalize_from_as_rebuild (cur p : string) :
  normalize_from cur p = rebuild (resolve (split_slash (absolute_of cur p))).
Proof. unfold normalize_from, absolute_of. destruct (resolve _); reflexivity. Qed.

Lemma no_slash_relative (x : string) : no_slash x = true -> starts_with_slash x = false.
Proof.
  destruct x as [|c x]; simpl; [reflexivity|].
  intros H. apply andb_true_iff in H as [Hc _]. now apply negb_true_iff in Hc.
Qed.

Lemma normalize_relative_pieces (parts : list string) (x : string) :
  Forall (fun q => good_part q = true) parts -> no_slash x = true ->
  normalize_from (rebuild parts) x = rebuild (rev (resolve_step (rev parts) x)).
Proof.
  intros Hg Hx. rewrite normalize_from_as_rebuild. f_equal.
  assert (Hsplit : split_slash (absolute_of (rebuild parts) x) = EmptyString :: parts ++ [x]).
  { unfold absolute_of. rewrite (no_slash_relative x Hx).
    destruct parts as [|p ps].
    - simpl. now rewrite (split_slash_word_alone x Hx).
    - rewrite (rebuild_cons_not_root (p :: ps) ltac:(discriminate) Hg).
      unfold rebuild. change (String.append "/" x) with (String "/"%char x).
      rewrite split_slash_app, (split_slash_word_alone x Hx).
      change (split_slash (String.append "/" (join "/" (p :: ps))))
        with (EmptyString :: split_slash (join "/" (p :: ps))).
      rewrite split_slash_join by (discriminate || now apply good_no_slash).
      reflexivity. }
  rewrite Hsplit. unfold resolve.
  change (fold_left resolve_step (EmptyString :: parts ++ [x]) [])
    with (fold_left resolve_step (parts ++ [x]) []).
  rewrite fold_left_app, (resolve_step_good parts [] Hg).
  rewrite app_nil_r. reflexivity.
Qed.

(** Relative resolution from a canonical current directory: a plain segment
    is appended to it, and [..] drops its last segment (at the root there
    is none to drop). *)
Theorem normalize_relative_segment (parts : list string) (x : string) :
  Forall (fun q => good_part q = true) parts ->
  (good_part x = true -> normalize_from (rebuild parts) x = rebuild (parts ++ [x])) /\
  normalize_from (rebuild parts) ".." = rebuild (removelast parts).
Proof.
  intros Hg. split.
  - intros Hx. rewrite normalize_relative_pieces; [|exact Hg|].
    + unfold good_part in Hx.
      destruct (x =? "") eqn:E1; [discriminate|].
      destruct (x =? ".") eqn:E2; [discriminate|].
      destruct (x =? "..") eqn:E3; [discriminate|].
      unfold resolve_step. rewrite E1, E2, E3. simpl. now rewrite rev_involutive.
    + unfold good_part in Hx. now repeat (apply andb_true_iff in Hx as [? Hx]).
  - rewrite normalize_relative_pieces by (exact Hg || reflexivity).
    unfold resolve_step. simpl.
    f_equal. rewrite <- rev_tl_rev. now destruct (rev parts).
Qed.

Lemma normalize_relative_segment_witness :
  Forall (fun q => good_part q = true) ["usr"; "lib"] /\
  ((good_part "x" = true ->
    normalize_from (rebuild ["usr"; "lib"]) "x" = rebuild (["usr"; "lib"] ++ ["x"])) /\
   normalize_from (rebuild ["usr"; "lib"]) ".." = rebuild (removelast ["usr"; "lib"])).
Proof.
  assert (H : Forall (fun q => good_part q = true) ["usr"; "lib"])
    by (repeat constructor).
  split; [exact H | exact (normalize_relative_segment _ "x" H)].
Defined.

(** ** Invariants of the table *)

Lemma lookup_none_not_in (rows : list row) (q : string) :
  lookup rows q = None -> ~ In q (map path rows).
Proof.
  unfold lookup. induction rows as [|r rows IH]; simpl; [auto|].
  destruct (String.eqb_spec (path r) q) as [E|E]; [discriminate|].
  intros Hn [H|H]; [congruence | exact (IH Hn H)].
Qed.

Lemma map_path_update (rows : list row) (q c : string) :
  map path (map (update_content q c) rows) = map path rows.
Proof. rewrite map_map. apply map_ext, update_content_path. Qed.

Lemma nodup_map_filter {A B : Type} (g : A -> B) (f : A -> bool) (l : list A) :
  NoDup (map g l) -> NoDup (map g (filter f l)).
Proof.
  induction l as [|a l IH]; simpl; intros H; [constructor|].
  inversion H as [|? ? Hn Hd]; subst.
  destruct (f a); simpl; [|exact (IH Hd)].
  constructor; [|exact (IH Hd)].
  intros Hin. apply Hn. apply in_map_iff in Hin as [y [Hy Hin]].
  apply filter_In in Hin as [Hin _]. apply in_map_iff. eauto.
Qed.

Lemma nodup_app_new (rows : list row) (r : row) :
  NoDup (map path rows) -> lookup rows (path r) = None ->
  NoDup (map path (rows ++ [r])).
Proof.
  intros Hd Hn. rewrite map_app. simpl.
  apply NoDup_app; [exact Hd | repeat constructor; auto |].
  intros x Hx [Hy|[]]. subst x. exact (lookup_none_not_in _ _ Hn Hx).
Qed.

Lemma exists_false_lookup (st : VFS) (q : string) :
  q = normalize_path st q -> exists_ st q = false -> lookup (filesystem st) q = None.
Proof.
  intros Hq He. rewrite exists_lookup, <- Hq in He.
  destruct (lookup _ _); [discriminate | reflexivity].
Qed.

(** What every step keeps about the rows: the paths are pairwise distinct
    (so [INSERT] never hits the [UNIQUE] constraint), [name] is the basename
    of [path] or, for [/] only, ["root"], and a directory row has empty
    content. *)
Definition row_shape (r : row) : Prop :=
  (name r = basename (path r) \/ (path r = "/" /\ name r = "root")) /\
  (type r = Directory -> content r = "").

Definition table_ok (rows : list row) : Prop :=
  NoDup (map path rows) /\ Forall row_shape rows.

Lemma lookup_unique (rows : list row) (q : string) (r r' : row) :
  NoDup (map path rows) -> lookup rows q = Some r -> In r' rows -> path r' = q -> r' = r.
Proof.
  unfold lookup. induction rows as [|r0 rows IH]; simpl; [contradiction|].
  intros Hd Hl Hin Hp. inversion Hd as [|? ? Hn Hd']; subst.
  destruct (String.eqb_spec (path r0) (path r')) as [E|E].
  - injection Hl as <-. destruct Hin as [->|Hin]; [reflexivity|].
    exfalso. apply Hn. rewrite E. now apply in_map.
  - destruct Hin as [->|Hin]; [congruence|]. exact (IH Hd' Hl Hin eq_refl).
Qed.

Lemma step_table_ok (st : VFS) (o : op) :
  table_ok (filesystem st) -> table_ok (filesystem (snd (step st o))).
Proof.
  intros [Hd Hs]. destruct o as [p c a|p|p|p|]; simpl.
  - rewrite write_file_lookup. cbv zeta.
    destruct (lookup (filesystem st) (normalize_path st p)) as [r|] eqn:Hl;
      [destruct (ftype_eqb (type r) File) eqn:Ef|]; simpl; [| split; assumption |].
    + split; [now rewrite map_path_update|].
      apply Forall_map. apply Forall_forall. intros r' Hin.
      pose proof (proj1 (Forall_forall _ _) Hs r' Hin) as [Hn Hc].
      unfold update_content. destruct (String.eqb_spec (path r') (normalize_path st p)) as [E|E];
        [|exact (conj Hn Hc)].
      rewrite (lookup_unique _ _ _ _ Hd Hl Hin E) in *.
      unfold row_shape. simpl. split; [exact Hn|].
      intros Ht. rewrite Ht in Ef. discriminate.
    + split; [apply nodup_app_new; assumption|].
      apply Forall_app. split; [exact Hs|]. constructor; [|constructor].
      unfold row_shape. simpl. split; [left; reflexivity | intros H; discriminate H].
  - unfold create_directory.
    destruct (exists_ st (normalize_path st p)) eqn:Ex; [split; assumption|].
    destruct (_ && _); simpl; [split; assumption|].
    split.
    + apply nodup_app_new; [exact Hd|]. simpl.
      apply exists_false_lookup; [symmetry; apply normalize_path_idem | exact Ex].
    + apply Forall_app. split; [exact Hs|]. constructor; [|constructor].
      unfold row_shape. simpl. split; [left; reflexivity | reflexivity].
  - unfold remove. destruct (negb _); [split; assumption|].
    destruct (is_directory _ _); [destruct (Nat.ltb _ _)|]; simpl;
      try (split; assumption);
      (split; [apply nodup_map_filter, Hd | apply forall_filter, Hs]).
  - unfold change_directory. destruct (_ || _); split; assumption.
  - vm_compute. split.
    + repeat constructor; simpl; intuition discriminate.
    + repeat constructor; try (right; split; reflexivity); try (left; reflexivity);
        discriminate.
Qed.

(** In every reachable state the paths of the table are pairwise distinct,
    each row's [name] is the basename of its path or, for the path [/]
    only, "root" (the name given at startup and at reset; a root made
    again by [create_directory] gets the basename, ""), and every
    directory row has empty content. *)
Theorem reachable_table_ok (ops : list op) : table_ok (filesystem (run vfs_init ops)).
Proof.
  apply (run_invariant (fun st => table_ok (filesystem st))).
  - intros st o. apply step_table_ok.
  - vm_compute. split.
    + repeat constructor; simpl; intuition discriminate.
    + repeat constructor; try (right; split; reflexivity); try (left; reflexivity);
        discriminate.
Qed.

(** ** The child pattern of a plain directory path *)

Lemma prefix_iff (a b : string) :
  String.prefix a b = true <-> exists r, b = String.append a r.
Proof.
  revert b. induction a as [|c a IH]; intros b.
  - destruct b; simpl; split; eauto.
  - destruct b as [|c' b]; simpl.
    + split; [discriminate | intros [r H]; discriminate].
    + destruct (ascii_dec c c') as [->|Hne].
      * rewrite IH. split; intros [r H]; exists r; [now rewrite H | now injection H].
      * split; [discriminate | intros [r H]; injection H; intros; congruence].
Qed.

Lemma string_app_assoc (a b c : string) :
  String.append (String.append a b) c = String.append a (String.append b c).
Proof. induction a as [|x a IH]; simpl; [reflexivity | now rewrite IH]. Qed.

Lemma string_app_cancel (q a b : string) :
  String.append q a = String.append q b -> a = b.
Proof. induction q as [|c q IH]; simpl; [auto | intros H; injection H; auto]. Qed.

(** In a canonical path every ['/'] is followed by a character other than
    ['/']. *)
Lemma canonical_after_slash (x a rest : string) :
  canonical x -> a <> EmptyString -> x = String.append a (String "/"%char rest) ->
  exists c r, rest = String c r /\ c <> "/"%char.
Proof.
  intros Hx Ha Hs. unfold canonical in Hx.
  destruct (normalize_rebuild "/" x) as [parts [Hg Hr]]. rewrite Hx in Hr.
  destruct parts as [|p ps].
  - simpl in Hr. rewrite Hs in Hr. destruct a as [|c a]; [congruence|].
    simpl in Hr. injection Hr as _ Hr. destruct a; discriminate.
  - assert (Hsx : split_slash x = EmptyString :: p :: ps).
    { rewrite Hr. unfold rebuild.
      change (split_slash (String.append "/" (join "/" (p :: ps))))
        with (EmptyString :: split_slash (join "/" (p :: ps))).
      rewrite split_slash_join by (discriminate || now apply good_no_slash).
      reflexivity. }
    rewrite Hs, split_slash_app in Hsx.
    destruct (split_slash_cons a) as [h [t Ha']]. rewrite Ha' in Hsx.
    simpl in Hsx. injection Hsx as _ Hsx.
    assert (Hgr : Forall (fun q => good_part q = true) (split_slash rest)).
    { rewrite <- Hsx in Hg. apply Forall_app in Hg. apply Hg. }
    destruct rest as [|c r].
    + simpl in Hgr. inversion Hgr as [|? ? Hbad _]. discriminate.
    + exists c, r. split; [reflexivity|]. intros ->.
      simpl in Hgr. inversion Hgr as [|? ? Hbad _]. discriminate.
Qed.

(** [x] lies below the directory [q] as GLOB sees it: [x] starts with
    [q/] and the character after [q/] is not NUL (SQLite reads [x] only up
    to its first NUL). *)
Definition below_dir (q x : string) : bool :=
  String.prefix (String.append q "/") x &&
  negb (String.prefix (String.append q (String "/"%char (String nul EmptyString))) x).

(** For canonical paths, the child pattern of a plain directory path other
    than the root matches exactly the paths [below_dir] it. *)
Lemma glob_child_nested (q x : string) :
  q <> EmptyString -> q <> "/" -> plain q = true -> canonical x ->
  glob (child_pattern q) x = below_dir q x.
Proof.
  intros Hqe Hq Hm Hx.
  assert (Hcp : child_pattern q = String.append q "/[^/]*").
  { unfold child_pattern. destruct (String.eqb_spec q "/"); [contradiction | reflexivity]. }
  rewrite Hcp. unfold below_dir.
  destruct (glob (String.append q "/[^/]*") x) eqn:Eg; symmetry.
  - apply (glob_child_bytes q x Hm) in Eg as [c [r [-> [Hc Hn]]]].
    apply andb_true_iff. split.
    + apply prefix_iff. exists (String c r). now rewrite string_app_assoc.
    + apply negb_true_iff. destruct (String.prefix _ _) eqn:Ep; [|reflexivity].
      apply prefix_iff in Ep as [r' Ep]. rewrite string_app_assoc in Ep.
      apply string_app_cancel in Ep. simpl in Ep. injection Ep as E _. contradiction.
  - destruct (String.prefix (String.append q "/") x) eqn:Ep; [|reflexivity].
    apply prefix_iff in Ep as [rest Hrest]. rewrite string_app_assoc in Hrest.
    simpl in Hrest.
    destruct (canonical_after_slash x q rest Hx Hqe Hrest) as [c [r [-> Hc]]].
    destruct (Ascii.eqb_spec c nul) as [->|Hn].
    + assert (Hp : String.prefix (String.append q (String "/"%char (String nul EmptyString))) x = true).
      { apply prefix_iff. exists r. rewrite Hrest, string_app_assoc. reflexivity. }
      rewrite Hp. reflexivity.
    + exfalso. assert (Hm' : glob (String.append q "/[^/]*") x = true).
      { apply glob_child_bytes; [exact Hm|]. exists c, r. auto. }
      congruence.
Qed.

Lemma ltb_length_filter {A : Type} (f : A -> bool) (l : list A) :
  Nat.ltb 0 (List.length (filter f l)) = existsb f l.
Proof.
  induction l as [|a l IH]; simpl; [reflexivity|].
  destruct (f a); simpl; [reflexivity | exact IH].
Qed.

Lemma normalize_not_empty (st : VFS) (p : string) : normalize_path st p <> EmptyString.
Proof.
  intros E. pose proof (normalize_starts_slash (current_path st) p) as H.
  unfold normalize_path in E. rewrite E in H. discriminate.
Qed.

Lemma filter_child_below (rows : list row) (q : string) :
  canon_rows rows -> q <> "/" -> plain q = true -> q <> EmptyString ->
  filter (fun r => glob (child_pattern q) (path r)) rows =
  filter (fun r => below_dir q (path r)) rows.
Proof.
  intros Hc Hq Hm He. apply filter_ext_in. intros r Hr.
  apply glob_child_nested; [exact He | exact Hq | exact Hm |].
  unfold canon_rows in Hc. rewrite Forall_forall in Hc. now apply Hc.
Qed.

(** [VFS.remove] on a directory other than the root whose path is plain
    (ASCII, without NUL or GLOB metacharacter), with a pattern within
    SQLite's length limit: it refuses exactly when some entry lies
    [below_dir] the directory, at any depth. *)
Theorem remove_directory_nonempty (ops : list op) (p : string) :
  let st := run vfs_init ops in
  let q := normalize_path st p in
  is_directory st p = true -> q <> "/" -> plain q = true ->
  (N.of_nat (String.length (child_pattern q)) <= glob_pattern_limit)%N ->
  fst (remove st p) = negb (existsb (fun r => below_dir q (path r)) (filesystem st)).
Proof.
  intros st q Hd Hq Hm _. unfold remove. fold q.
  assert (He : exists_ st q = true).
  { unfold q. rewrite exists_lookup, normalize_path_idem.
    rewrite is_directory_lookup in Hd. destruct (lookup _ _); [reflexivity | discriminate]. }
  assert (Hd' : is_directory st q = true) by (unfold q; now rewrite is_directory_lookup, normalize_path_idem, <- is_directory_lookup).
  rewrite He, Hd'. cbv zeta. simpl negb. cbv iota.
  rewrite filter_child_below, ltb_length_filter;
    [| apply reachable_canon_rows | exact Hq | exact Hm | apply normalize_not_empty].
  destruct (existsb _ _); reflexivity.
Qed.

Lemma remove_directory_nonempty_witness :
  let st := run vfs_init [OMkdir "/d"; OWrite "/d/f" "x" false] in
  (is_directory st "/d" = true /\ normalize_path st "/d" <> "/" /\
   plain (normalize_path st "/d") = true /\
   (N.of_nat (String.length (child_pattern (normalize_path st "/d"))) <= glob_pattern_limit)%N) /\
  fst (remove st "/d") =
  negb (existsb (fun r => below_dir (normalize_path st "/d") (path r)) (filesystem st)).
Proof.
  cbv zeta.
  assert (H1 : is_directory (run vfs_init [OMkdir "/d"; OWrite "/d/f" "x" false]) "/d" = true)
    by (vm_compute; reflexivity).
  assert (H2 : normalize_path (run vfs_init [OMkdir "/d"; OWrite "/d/f" "x" false]) "/d" <> "/")
    by (vm_compute; discriminate).
  assert (H3 : plain (normalize_path (run vfs_init [OMkdir "/d"; OWrite "/d/f" "x" false]) "/d") = true)
    by (vm_compute; reflexivity).
  assert (H4 : (N.of_nat (String.length (child_pattern
                  (normalize_path (run vfs_init [OMkdir "/d"; OWrite "/d/f" "x" false]) "/d")))
                <= glob_pattern_limit)%N)
    by (apply N.leb_le; vm_compute; reflexivity).
  split; [auto|].
  exact (remove_directory_nonempty [OMkdir "/d"; OWrite "/d/f" "x" false] "/d" H1 H2 H3 H4).
Defined.

Lemma insert_ordered_perm (x : string * ftype) (l : list (string * ftype)) :
  Permutation (insert_ordered x l) (x :: l).
Proof.
  induction l as [|y l IH]; simpl; [reflexivity|].
  destruct (order_cmp x y); try reflexivity.
  rewrite IH. apply perm_swap.
Qed.

Lemma order_by_perm (l : list (string * ftype)) : Permutation (order_by l) l.
Proof.
  induction l as [|x l IH]; simpl; [reflexivity|].
  rewrite insert_ordered_perm. now apply perm_skip.
Qed.

Lemma prefix_self_slash (q : string) : String.prefix (String.append q "/") q = false.
Proof.
  destruct (String.prefix _ _) eqn:E; [|reflexivity].
  apply prefix_iff in E as [r E].
  apply (f_equal String.length) in E. rewrite !string_length_append in E.
  simpl in E. lia.
Qed.

(** [VFS.list_directory] on a directory other than the root whose path is
    plain, with a pattern within SQLite's length limit, lists, up to
    order, the name and type of every entry [below_dir] it, at any
    depth. *)
Theorem list_directory_descendants (ops : list op) (p : string) :
  let st := run vfs_init ops in
  let q := normalize_path st p in
  is_directory st p = true -> q <> "/" -> plain q = true ->
  (N.of_nat (String.length (child_pattern q)) <= glob_pattern_limit)%N ->
  exists l, list_directory st (Some p) = Some l /\
    Permutation l
      (map (fun r => (name r, type r))
           (filter (fun r => below_dir q (path r)) (filesystem st))).
Proof.
  intros st q Hd Hq Hm _. unfold list_directory. fold q.
  assert (He : exists_ st q = true).
  { unfold q. rewrite exists_lookup, normalize_path_idem.
    rewrite is_directory_lookup in Hd. destruct (lookup _ _); [reflexivity | discriminate]. }
  assert (Hd' : is_directory st q = true) by (unfold q; now rewrite is_directory_lookup, normalize_path_idem, <- is_directory_lookup).
  rewrite He, Hd'. simpl negb. simpl orb. cbv iota zeta.
  eexists. split; [reflexivity|]. rewrite order_by_perm.
  assert (Hf : filter (fun r => glob (child_pattern q) (path r) && negb (path r =? q)) (filesystem st) =
               filter (fun r => below_dir q (path r)) (filesystem st)).
  { rewrite <- filter_child_below;
      [| apply reachable_canon_rows | exact Hq | exact Hm | apply normalize_not_empty].
    apply filter_ext_in. intros r _.
    destruct (glob _ _) eqn:Eg; [|reflexivity]. simpl.
    destruct (String.eqb_spec (path r) q) as [E|E]; [|reflexivity].
    exfalso. rewrite E in Eg.
    rewrite glob_child_nested in Eg;
      [| apply normalize_not_empty | exact Hq | exact Hm | apply normalize_canonical].
    unfold below_dir in Eg. now rewrite prefix_self_slash in Eg. }
  rewrite Hf. reflexivity.
Qed.

Lemma list_directory_descendants_witness :
  let st := run vfs_init [OMkdir "/d"; OMkdir "/d/e"; OWrite "/d/e/f" "x" false] in
  (is_directory st "/d" = true /\ normalize_path st "/d" <> "/" /\
   plain (normalize_path st "/d") = true /\
   (N.of_nat (String.length (child_pattern (normalize_path st "/d"))) <= glob_pattern_limit)%N) /\
  exists l, list_directory st (Some "/d") = Some l /\
    Permutation l
      (map (fun r => (name r, type r))
           (filter (fun r => below_dir (normalize_path st "/d") (path r)) (filesystem st))).
Proof.
  cbv zeta.
  assert (H1 : is_directory (run vfs_init [OMkdir "/d"; OMkdir "/d/e"; OWrite "/d/e/f" "x" false]) "/d" = true)
    by (vm_compute; reflexivity).
  assert (H2 : normalize_path (run vfs_init [OMkdir "/d"; OMkdir "/d/e"; OWrite "/d/e/f" "x" false]) "/d" <> "/")
    by (vm_compute; discriminate).
  assert (H3 : plain (normalize_path (run vfs_init [OMkdir "/d"; OMkdir "/d/e"; OWrite "/d/e/f" "x" false]) "/d") = true)
    by (vm_compute; reflexivity).
  assert (H4 : (N.of_nat (String.length (child_pattern
                  (normalize_path (run vfs_init [OMkdir "/d"; OMkdir "/d/e"; OWrite "/d/e/f" "x" false]) "/d")))
                <= glob_pattern_limit)%N)
    by (apply N.leb_le; vm_compute; reflexivity).
  split; [auto|].
  exact (list_directory_descendants [OMkdir "/d"; OMkdir "/d/e"; OWrite "/d/e/f" "x" false] "/d"
           H1 H2 H3 H4).
Defined.

(** ** The shell commands *)










Lemma write_read_back (st : VFS) (p c : string) :
  is_directory st p = false ->
  fst (write_file st p c false) = true /\
  read_file (snd (write_file st p c false)) p = Some c.
Proof.
  intros Hnd. rewrite is_directory_lookup in Hnd.
  rewrite write_file_lookup. cbv zeta.
  destruct (lookup (filesystem st) (normalize_path st p)) as [[rp rn [|] rc]|] eqn:Hl;
    [| discriminate |]; simpl; split; try reflexivity;
    rewrite read_file_lookup, normalize_set, filesystem_set.
  - rewrite lookup_update, Hl. reflexivity.
  - rewrite (lookup_app_new _ _ (mkRow (normalize_path st p) (basename (normalize_path st p)) File c)
               Hl eq_refl).
    reflexivity.
Qed.


Lemma write_file_cursor (st : VFS) (p c : string) (append : bool) :
  current_path (snd (write_file st p c append)) = current_path st.
Proof.
  rewrite write_file_lookup. cbv zeta.
  destruct (lookup _ _) as [[? ? [|] ?]|]; reflexivity.
Qed.

Lemma write_read_back_file (st : VFS) (p c : string) :
  is_directory st p = false ->
  is_directory (snd (write_file st p c false)) p = false.
Proof.
  intros Hnd. destruct (write_read_back st p c Hnd) as [_ Hr].
  rewrite read_file_lookup in Hr. rewrite is_directory_lookup.
  destruct (lookup _ _) as [[? ? [|] ?]|]; [reflexivity | discriminate | reflexivity].
Qed.





(** [touch f] on a path that is not a directory succeeds and leaves [f] an
    empty file: a missing file is created, an existing one is truncated. *)
Theorem touch_empties (st : VFS) (f : string) :
  is_directory st f = false ->
  let res := touch_command [f] st in
  fst res = EmptyString /\ read_file (snd res) f = Some EmptyString.
Proof.
  intros Hnd res. unfold res, touch_command, touch_loop.
  destruct (write_read_back st f EmptyString Hnd) as [Hok Hr].
  destruct (write_file st f EmptyString false) as [ok st'] eqn:Ew. simpl in Hok, Hr. subst ok.
  simpl. split; [reflexivity | exact Hr].
Qed.

Lemma touch_empties_witness :
  is_directory vfs_init "welcome.txt" = false /\
  (fst (touch_command ["welcome.txt"] vfs_init) = EmptyString /\
   read_file (snd (touch_command ["welcome.txt"] vfs_init)) "welcome.txt" = Some EmptyString).
Proof.
  assert (H : is_directory vfs_init "welcome.txt" = false) by (vm_compute; reflexivity).
  split; [exact H | exact (touch_empties vfs_init "welcome.txt" H)].
Defined.

Lemma create_directory_cursor (st : VFS) (d : string) :
  current_path (snd (create_directory st d)) = current_path st.
Proof.
  unfold create_directory. destruct (exists_ _ _); [reflexivity|].
  destruct (_ && _); reflexivity.
Qed.

Lemma create_directory_made (st : VFS) (d : string) :
  fst (create_directory st d) = true -> is_directory (snd (create_directory st d)) d = true.
Proof.
  unfold create_directory. destruct (exists_ st (normalize_path st d)) eqn:He; [discriminate|].
  destruct (_ && _); [discriminate|]. intros _. simpl snd.
  rewrite is_directory_lookup, normalize_set, filesystem_set, lookup_app_end.
  rewrite (exists_false_lookup st (normalize_path st d)) by
    (now rewrite normalize_path_idem || exact He).
  simpl. now rewrite String.eqb_refl.
Qed.

Lemma create_directory_keeps (st : VFS) (d x : string) :
  is_directory st x = true -> is_directory (snd (create_directory st d)) x = true.
Proof.
  intros Hx. unfold create_directory. destruct (exists_ _ _); [exact Hx|].
  destruct (_ && _); [exact Hx|]. simpl snd.
  rewrite is_directory_lookup, normalize_set, filesystem_set, lookup_app_end.
  rewrite is_directory_lookup in Hx. destruct (lookup _ _); [exact Hx | discriminate].
Qed.

Lemma mkdir_loop_keeps (ds : list string) (st : VFS) (x : string) :
  is_directory st x = true -> is_directory (snd (mkdir_loop ds st)) x = true.
Proof.
  revert st. induction ds as [|d ds IH]; intros st Hx; simpl; [exact Hx|].
  pose proof (create_directory_keeps st d x Hx) as Hk.
  destruct (create_directory st d) as [ok st'] eqn:Ec. simpl in Hk.
  destruct ok; [apply IH, Hk | exact Hk].
Qed.

(** When [mkdir d1 ... dn] prints nothing, every [di] is a directory
    afterwards: the directories are created in order (so [mkdir a a/b]
    works) and a later creation never undoes an earlier one. *)
Theorem mkdir_command_all (st : VFS) (ds : list string) :
  fst (mkdir_command ds st) = EmptyString ->
  forall d, In d ds -> is_directory (snd (mkdir_command ds st)) d = true.
Proof.
  destruct ds as [|d0 ds0]; [discriminate|]. unfold mkdir_command.
  generalize (d0 :: ds0) as ds. clear d0 ds0.
  intros ds. revert st. induction ds as [|d ds IH]; intros st Hout x Hin; [contradiction|].
  simpl in Hout |- *.
  pose proof (create_directory_made st d) as Hm.
  destruct (create_directory st d) as [ok st'] eqn:Ec. simpl in Hm.
  destruct ok; [|discriminate].
  destruct Hin as [<-|Hin].
  - apply mkdir_loop_keeps, Hm, eq_refl.
  - exact (IH st' Hout x Hin).
Qed.

Lemma mkdir_command_all_witness :
  fst (mkdir_command ["a"; "a/b"] vfs_init) = EmptyString /\
  (forall d, In d ["a"; "a/b"] ->
             is_directory (snd (mkdir_command ["a"; "a/b"] vfs_init)) d = true).
Proof.
  assert (H : fst (mkdir_command ["a"; "a/b"] vfs_init) = EmptyString)
    by (vm_compute; reflexivity).
  split; [exact H | exact (mkdir_command_all vfs_init ["a"; "a/b"] H)].
Defined.

Lemma remove_fails (st : VFS) (p : string) :
  fst (remove st p) = false ->
  snd (remove st p) = st /\ (exists_ st p = false \/ is_directory st p = true).
Proof.
  unfold remove.
  assert (He : exists_ st (normalize_path st p) = exists_ st p)
    by (now rewrite !exists_lookup, normalize_path_idem).
  assert (Hd : is_directory st (normalize_path st p) = is_directory st p)
    by (now rewrite !is_directory_lookup, normalize_path_idem).
  rewrite He, Hd. destruct (exists_ st p); simpl; [|auto].
  destruct (is_directory st p); simpl; [|discriminate].
  destruct (Nat.ltb _ _); simpl; [auto | discriminate].
Qed.

Lemma rm_loop_outcomes (ps : list string) (st : VFS) :
  fst (rm_loop ps st) = EmptyString \/
  exists p, In p ps /\
    (fst (rm_loop ps st) = String.append "rm: cannot remove '"
        (String.append p "': No such file or directory") \/
     fst (rm_loop ps st) =
       String.append "rm: cannot remove '" (String.append p "': Directory not empty")).
Proof.
  revert st. induction ps as [|p ps IH]; intros st; simpl; [auto|].
  pose proof (remove_fails st p) as Hf.
  destruct (remove st p) as [ok st'] eqn:Er. simpl in Hf.
  destruct ok.
  - destruct (IH st') as [H|[q [Hq H]]]; [auto | right; exists q; auto].
  - destruct (Hf eq_refl) as [-> [He|Hd]].
    + rewrite He. simpl. right. exists p. auto.
    + destruct (exists_ st p); simpl; [rewrite Hd | ]; right; exists p; auto.
Qed.

(** [rm] reports only the two reasons [remove] can fail: a missing path,
    or a directory that is not empty; its generic "cannot remove" message
    is never printed.  The child pattern of every argument is within
    SQLite's length limit: past it the counting query of [remove] raises,
    and [execute_command] prints the exception instead. *)
Theorem rm_command_outcomes (args : list string) (st : VFS) :
  Forall (fun a =>
    (N.of_nat (String.length (child_pattern (normalize_path st a))) <= glob_pattern_limit)%N)
    args ->
  let out := fst (rm_command args st) in
  out = EmptyString \/ out = "rm: missing operand" \/
  exists p, In p args /\
    (out = String.append "rm: cannot remove '"
             (String.append p "': No such file or directory") \/
     out = String.append "rm: cannot remove '" (String.append p "': Directory not empty")).
Proof.
  intros _ out. unfold out, rm_command. destruct args as [|a0 args0]; [auto|].
  destruct (rm_loop_outcomes (a0 :: args0) st) as [H|H]; auto.
Qed.

Lemma rm_command_outcomes_witness :
  Forall (fun a =>
    (N.of_nat (String.length (child_pattern (normalize_path vfs_init a))) <= glob_pattern_limit)%N)
    ["/home"; "zz"] /\
  let out := fst (rm_command ["/home"; "zz"] vfs_init) in
  out = EmptyString \/ out = "rm: missing operand" \/
  exists p, In p ["/home"; "zz"] /\
    (out = String.append "rm: cannot remove '"
             (String.append p "': No such file or directory") \/
     out = String.append "rm: cannot remove '" (String.append p "': Directory not empty")).
Proof.
  assert (H : Forall (fun a =>
    (N.of_nat (String.length (child_pattern (normalize_path vfs_init a))) <= glob_pattern_limit)%N)
    ["/home"; "zz"]).
  { repeat constructor; apply N.leb_le; vm_compute; reflexivity. }
  split; [exact H | exact (rm_command_outcomes ["/home"; "zz"] vfs_init H)].
Defined.
